(** * podlet-server: the development orchestrator and the element importer

    A shallow embedding of [api/dev.js] (build context, client and server
    watch handlers, [DevServer]), of the content and fallback routes of the
    server plugin that is kept in the same source file, and of
    [plugins/import-element.js] (the custom element registry and
    [importElement]).

    JavaScript objects that the code mutates are threaded as explicit state
    through a state-and-exception monad; calls into packages that are not
    part of the sources (esbuild, fastify, lit, the path resolver, the
    rendering plugins) are either parameters of a section or recorded as
    symbolic events. *)

From Stdlib Require Import String Ascii List Bool Arith ZArith Lia.
From stdpp Require Import base gmap strings list.
Import ListNotations.

Local Open Scope string_scope.
Local Open Scope list_scope.

(** ** JavaScript values, as far as the code inspects them *)

Module Js.

(** The values a dynamically imported module can have as its default
    export, and hence the values [define] can receive as [ctor].  A class
    carries an identity and its static [observedAttributes], if any. *)
Inductive value : Type :=
  | VUndefined
  | VNull
  | VBool (b : bool)
  | VNum (n : Z)
  | VStr (s : string)
  | VClass (id : nat) (observed : option (list string)).

(** An error object with its message. *)
Inductive error : Type :=
  | Error (message : string).

Definition message (e : error) : string :=
  match e with Error m => m end.

(** A string is truthy unless it is empty. *)
Definition str_truthy (s : string) : bool :=
  match s with
  | EmptyString => false
  | String _ _ => true
  end.

(** JavaScript truthiness. *)
Definition truthy (v : value) : bool :=
  match v with
  | VUndefined | VNull => false
  | VBool b => b
  | VNum n => negb (Z.eqb n 0)
  | VStr s => str_truthy s
  | VClass _ _ => true
  end.

(** [ctor.observedAttributes ?? []] for a truthy [ctor]: only a class can
    own the static property, any other value yields [undefined]. *)
Definition observedAttributes_or_empty (v : value) : list string :=
  match v with
  | VClass _ (Some l) => l
  | _ => []
  end.

(** The double quote character, for messages and markup that contain it. *)
Definition dq : string := String (ascii_of_nat 34) EmptyString.

End Js.

(** ** Outcomes and the state-and-exception monad

    A JavaScript call either returns or throws; in both cases the mutations
    made so far stay.  [M S A] is a computation over the mutable state [S]. *)

Inductive outcome (A : Type) : Type :=
  | Returned (a : A)
  | Thrown (e : Js.error).
Arguments Returned {A} a.
Arguments Thrown {A} e.

Definition M (S A : Type) : Type := S -> outcome A * S.

Definition ret {S A} (a : A) : M S A := fun s => (Returned a, s).

Definition throw {S A} (e : Js.error) : M S A := fun s => (Thrown e, s).

Definition bind {S A B} (m : M S A) (k : A -> M S B) : M S B :=
  fun s =>
    match m s with
    | (Returned a, s') => k a s'
    | (Thrown e, s') => (Thrown e, s')
    end.

(** [try { m } catch (err) { h err }] *)
Definition try_catch {S A} (m : M S A) (h : Js.error -> M S A) : M S A :=
  fun s =>
    match m s with
    | (Returned a, s') => (Returned a, s')
    | (Thrown e, s') => h e s'
    end.

(** An outcome decided outside the state. *)
Definition of_outcome {S A} (o : outcome A) : M S A := fun s => (o, s).

Definition get_state {S} : M S S := fun s => (Returned s, s).

Definition modify {S} (f : S -> S) : M S unit := fun s => (Returned tt, f s).

#[global] Instance M_ret {S} : MRet (M S) := fun A a => ret a.
#[global] Instance M_bind {S} : MBind (M S) := fun A B k m => bind m k.

(** ** The custom element registry ([plugins/import-element.js], lines 15-41) *)

Module Registry.

(** One entry of [__definitions]. *)
Record definition : Type := Definition_ {
  ctor : Js.value;
  observedAttributes : list string
}.

(** [class CustomElementRegistry]: the map and the mode flag set by the
    constructor. *)
Record t : Type := Make {
  definitions : gmap string definition;
  development : bool
}.

(** [new CustomElementRegistry(development)] *)
Definition create (development : bool) : t :=
  {| definitions := ∅; development := development |}.

(** [this.__definitions.has(name)] *)
Definition has (r : t) (name : string) : bool :=
  match definitions r !! name with
  | Some _ => true
  | None => false
  end.

(** [this.__definitions.set(name, d)] *)
Definition set (name : string) (d : definition) (r : t) : t :=
  {| definitions := <[name := d]> (definitions r);
     development := development r |}.

Definition already_used (name : string) : Js.error :=
  Js.Error ("Failed to execute 'define' on 'CustomElementRegistry': "
            +:+ "the name " +:+ Js.dq +:+ name +:+ Js.dq
            +:+ " has already been used with this registry").

(** [define(name, ctor)] *)
Definition define (name : string) (ctor : Js.value) : M t unit :=
  fun r =>
    if negb (Js.str_truthy name) || negb (Js.truthy ctor) then
      (Returned tt, r)
    else if negb (development r) && has r name then
      (Thrown (already_used name), r)
    else
      (Returned tt,
       set name
         {| ctor := ctor;
            observedAttributes := Js.observedAttributes_or_empty ctor |} r).

(** [get(name)]: [definition?.ctor] *)
Definition get (r : t) (name : string) : Js.value :=
  match definitions r !! name with
  | Some d => ctor d
  | None => Js.VUndefined
  end.

(** The registries a process can hold: the one the plugin creates, and
    whatever calls of [define] make of it. *)
Inductive reachable : t -> Prop :=
  | reach_create (dev : bool) : reachable (create dev)
  | reach_define (r : t) (name : string) (ctor : Js.value) :
      reachable r -> reachable (snd (define name ctor r)).

End Registry.

(** ** Paths

    The parts of Node's [path] module that the code uses, for POSIX paths. *)

Module Path.

Definition is_slash (c : ascii) : bool := Ascii.eqb c "/"%char.
Definition is_dot (c : ascii) : bool := Ascii.eqb c "."%char.

Fixpoint drop_while (p : ascii -> bool) (l : list ascii) : list ascii :=
  match l with
  | [] => []
  | c :: l' => if p c then drop_while p l' else l
  end.

Fixpoint take_while (p : ascii -> bool) (l : list ascii) : list ascii :=
  match l with
  | [] => []
  | c :: l' => if p c then c :: take_while p l' else []
  end.

(** The characters of [parse(path).base], last character first: trailing
    slashes are skipped, then everything up to the previous slash. *)
Definition rev_base (path : string) : list ascii :=
  take_while (fun c => negb (is_slash c))
    (drop_while is_slash (rev (list_ascii_of_string path))).

(** [parse(path).name]: the base without its extension.  The extension
    starts at the last dot of the base, unless that dot is the first
    character of the base or the base is [..]. *)
Definition parse_name (path : string) : string :=
  let b := rev_base path in
  match drop_while (fun c => negb (is_dot c)) b with
  | [] => string_of_list_ascii (rev b)
  | _ :: [] => string_of_list_ascii (rev b)
  | _ :: stem =>
      if String.eqb (string_of_list_ascii (rev b)) ".."
      then string_of_list_ascii (rev b)
      else string_of_list_ascii (rev stem)
  end.

(** Every run of slashes becomes one slash. *)
Fixpoint collapse_slashes (s : string) : string :=
  match s with
  | EmptyString => EmptyString
  | String c s' =>
      if is_slash c then
        match s' with
        | String c' _ =>
            if is_slash c' then collapse_slashes s'
            else String c (collapse_slashes s')
        | EmptyString => String c EmptyString
        end
      else String c (collapse_slashes s')
  end.

(** [joinURLPathSegments(a, b)] of [api/dev.js], lines 91-93: the segments
    joined by a slash, then runs of slashes collapsed. *)
Definition joinURLPathSegments (a b : string) : string :=
  collapse_slashes (a +:+ "/" +:+ b).

(** [join(a, b)] for the paths the code joins: the segments are put
    together with one slash; [.] and [..] segments are left as they are. *)
Definition join (a b : string) : string :=
  collapse_slashes (a +:+ "/" +:+ b).

(** [s.replace(pat, rep)] with a string pattern: the first occurrence. *)
Fixpoint replace_first (pat rep s : string) : string :=
  if String.prefix pat s then
    rep +:+ String.substring (String.length pat)
              (String.length s - String.length pat) s
  else
    match s with
    | EmptyString => EmptyString
    | String c s' => String c (replace_first pat rep s')
    end.

End Path.

(** ** The element importer ([plugins/import-element.js], lines 43-171) *)

Module Importer.

(** Work done outside the process, in the order it is started. *)
Inductive event : Type :=
  | EvResolve (path : string)
  | EvStat (file : string)
  | EvBuild (entry outfile : string)
  | EvImport (file : string).

Inductive log_entry : Type :=
  | LogError (e : Js.error)
  | LogDebug (msg : string).

(** What [esbuild.build] can do: resolve after writing the bundle, or
    reject, with the bundle written or not. *)
Inductive build_outcome : Type :=
  | BuildOk
  | BuildFailed (e : Js.error) (written : bool).

(** What the top-level code of a bundle does with the global
    [customElements] while the bundle is evaluated: it can call the two
    methods of the registry, [define] (as a component's own
    [customElements.define] or decorator does for itself and for the
    components it uses) and [get], and go on according to what they
    answer.  A [define] is called bare, or inside a [try] whose [catch]
    goes on with the error.  The code of a bundle is taken to act on the
    state of the plugin through the registry only. *)
Inductive script : Type :=
  | Stop
  | Define (name : string) (ctor : Js.value) (next : script)
  | TryDefine (name : string) (ctor : Js.value)
      (next : script) (caught : Js.error -> script)
  | Get (name : string) (next : Js.value -> script).

(** The script run on a registry.  An error of a bare [define] ends the
    evaluation. *)
Fixpoint evaluate (s : script) : M Registry.t unit :=
  match s with
  | Stop => mret tt
  | Define name ctor next => Registry.define name ctor;; evaluate next
  | TryDefine name ctor next caught =>
      fun r =>
        match Registry.define name ctor r with
        | (Returned _, r') => evaluate next r'
        | (Thrown e, r') => evaluate (caught e) r'
        end
  | Get name next => fun r => evaluate (next (Registry.get r name)) r
  end.

(** The surroundings of the plugin: [require.resolve] with [paths: [cwd]],
    [esbuild.build] with the configured plugins, and what evaluating a
    bundle file does and yields: the calls its top-level code makes on the
    registry, then its default export or the error it ends with. *)
Record env : Type := Env {
  require_resolve : string -> outcome string;
  esbuild_build : string -> string -> build_outcome;
  module_code : string -> script;
  module_default : string -> outcome Js.value
}.

(** The state the plugin reads and writes: the global [customElements],
    the files under [dist/server], and what was logged and started.  The
    metrics timers are left out. *)
Record world : Type := World {
  customElements : Registry.t;
  files : gset string;
  io : list event;
  log : list log_entry
}.

Definition add_io (e : event) (w : world) : world :=
  {| customElements := customElements w; files := files w;
     io := io w ++ [e]; log := log w |}.

Definition add_log (l : log_entry) (w : world) : world :=
  {| customElements := customElements w; files := files w;
     io := io w; log := log w ++ [l] |}.

Definition add_file (f : string) (w : world) : world :=
  {| customElements := customElements w; files := {[ f ]} ∪ files w;
     io := io w; log := log w |}.

Definition with_registry (r : Registry.t) (w : world) : world :=
  {| customElements := r; files := files w; io := io w; log := log w |}.

Definition emit (e : event) : M world unit := modify (add_io e).

Definition write_log (l : log_entry) : M world unit := modify (add_log l).

Definition write_file (f : string) : M world unit := modify (add_file f).

(** Run a registry method on the global [customElements]. *)
Definition on_registry {A} (m : M Registry.t A) : M world A :=
  fun w =>
    let '(o, r) := m (customElements w) in
    (o, with_registry r w).

Definition invalid_path (path : string) : Js.error :=
  Js.Error ("Invalid path '" +:+ path +:+ "' given to importElement. "
            +:+ "path must be a path (relative or absolute) to a file "
            +:+ "including filename and extension.").

Definition module_not_found (file : string) : Js.error :=
  Js.Error ("Cannot find module '" +:+ file +:+ "'").

Definition is_returned {A} (o : outcome A) : bool :=
  match o with Returned _ => true | Thrown _ => false end.

Definition is_build (e : event) : bool :=
  match e with EvBuild _ _ => true | _ => false end.

Definition is_import (e : event) : bool :=
  match e with EvImport _ => true | _ => false end.

Section Plugin.

(** The plugin options, and the surroundings. *)
Variables (appName : string) (development : bool) (cwd : string) (E : env).

(** [join(cwd, 'dist', 'server')] *)
Definition outdir : string := Path.join (Path.join cwd "dist") "server".

(** [new CustomElementRegistry(development)] replaces the global. *)
Definition init : world :=
  {| customElements := Registry.create development;
     files := ∅; io := []; log := [] |}.

(** [require.resolve(path, { paths: [cwd] })] *)
Definition resolve_source (path : string) : M world string :=
  emit (EvResolve path);;
  of_outcome (require_resolve E path).

(** [await stat(outfile)] inside its own try/catch: does the file exist *)
Definition stat_exists (outfile : string) : M world bool :=
  emit (EvStat outfile);;
  w ← get_state;
  mret (bool_decide (outfile ∈ files w)).

(** [await esbuild.build({ entryPoints: [filepath], outfile, ... })] *)
Definition build (filepath outfile : string) : M world unit :=
  emit (EvBuild filepath outfile);;
  match esbuild_build E filepath outfile with
  | BuildOk => write_file outfile
  | BuildFailed e written =>
      (if written then write_file outfile else mret tt);;
      throw e
  end.

(** [(await import(outfile + '?s=' + Date.now())).default]: the file is
    read and evaluated anew at every call, and its top-level code runs on
    the global registry. *)
Definition import_default (outfile : string) : M world Js.value :=
  emit (EvImport outfile);;
  w ← get_state;
  if bool_decide (outfile ∈ files w)
  then
    on_registry (evaluate (module_code E outfile));;
    of_outcome (module_default E outfile)
  else throw (module_not_found outfile).

(** The registry key, [appName-name]. *)
Definition key_of (name : string) : string := appName +:+ "-" +:+ name.

(** Lines 106-113: the source file is located; a failure is logged, and
    thrown again in production. *)
Definition resolve_step (path : string) : M world string :=
  try_catch (resolve_source path)
    (fun err =>
       write_log (LogError err);;
       if negb development then throw err else mret EmptyString).

(** Lines 117-144: the bundle is built if it is not on disk, and always in
    development; a failure of the bundler is logged. *)
Definition bundle_step (filepath outfile : string) : M world unit :=
  exists_ ← stat_exists outfile;
  if development || negb exists_ then
    write_log (LogDebug ("Bundling " +:+ filepath +:+ " to " +:+ outfile));;
    try_catch (build filepath outfile)
      (fun err => write_log (LogError err))
  else mret tt.

(** Lines 152-158: the bundle is imported; a failure is logged, and thrown
    again in production; in development [Element] stays [undefined]. *)
Definition import_step (outfile : string) : M world Js.value :=
  try_catch (import_default outfile)
    (fun err =>
       write_log (LogError err);;
       if negb development then throw err else mret Js.VUndefined).

(** Lines 162-167: the element is defined; a failure is logged, and thrown
    again in production. *)
Definition define_step (key : string) (Element : Js.value) : M world unit :=
  try_catch (on_registry (Registry.define key Element))
    (fun err =>
       write_log (LogError err);;
       if negb development then throw err else mret tt).

(** The negation of the test of line 92, [!name || name === '.']. *)
Definition usable_name (path : string) : bool :=
  Js.str_truthy (Path.parse_name path)
  && negb (String.eqb (Path.parse_name path) ".").

(** [join(outdir, name + '.js')] *)
Definition outfile_of (path : string) : string :=
  Path.join outdir (Path.parse_name path +:+ ".js").

(** The test of line 102, [!development && customElements.get(key)]. *)
Definition already_defined (path : string) (w : world) : bool :=
  negb development
  && Js.truthy (Registry.get (customElements w)
                  (key_of (Path.parse_name path))).

(** [fastify.importElement(path)].  The function has no [return] with a
    value: it yields [undefined] whenever it does not throw. *)
Definition importElement (path : string) : M world Js.value :=
  if negb (usable_name path) then
    throw (invalid_path path)
  else
    w ← get_state;
    if already_defined path w then mret Js.VUndefined
    else
      filepath ← resolve_step path;
      bundle_step filepath (outfile_of path);;
      Element ← import_step (outfile_of path);
      define_step (key_of (Path.parse_name path)) Element;;
      mret Js.VUndefined.

(** The world after the [try]/[catch] around [esbuild.build]. *)
Definition after_build (filepath outfile : string) (w : world) : world :=
  match esbuild_build E filepath outfile with
  | BuildOk => add_file outfile w
  | BuildFailed e written =>
      add_log (LogError e) (if written then add_file outfile w else w)
  end.

(** What the dynamic import yields in a world, and the registry it
    leaves. *)
Definition import_result (outfile : string) (w : world) : outcome Js.value :=
  if bool_decide (outfile ∈ files w) then
    match evaluate (module_code E outfile) (customElements w) with
    | (Returned _, _) => module_default E outfile
    | (Thrown e, _) => Thrown e
    end
  else Thrown (module_not_found outfile).

Definition registry_after_import (outfile : string) (w : world)
  : Registry.t :=
  if bool_decide (outfile ∈ files w)
  then snd (evaluate (module_code E outfile) (customElements w))
  else customElements w.

(** A registry is what a run that started in [w] can hold once the import
    is over: the registry of [w], or what the code of the bundle makes of
    it. *)
Definition left_by_import (outfile : string) (w : world) (r : Registry.t)
  : Prop :=
  r = customElements w \/
  r = snd (evaluate (module_code E outfile) (customElements w)).

(** The run gets as far as the bundling step: the name is usable, the
    production fast path does not answer, and locating the source did not
    end the run. *)
Definition reaches_bundling_step (path : string) (w : world) : bool :=
  usable_name path
  && negb (already_defined path w)
  && (development || is_returned (require_resolve E path)).

(** The calls a run of [importElement] adds to the history. *)
Definition started (path : string) (w : world) : list event :=
  drop (length (io w)) (io (snd (importElement path w))).

End Plugin.

End Importer.

(** ** The content and fallback routes (server plugin, source lines 528-646) *)

Module Routes.

(** The lit template of a route: the element tag and its attributes. *)
Record template : Type := Template {
  tag : string;
  version_attr : option string;
  locale_attr : string;
  translations_attr : string;
  initial_state_attr : string
}.

(** The pieces a response body is put together from.  The plugins that
    produce them ([script.js], [ssr.js], [csr.js], [hydrate.js]) are not
    among the sources; each call is kept with its arguments. *)
Inductive part : Type :=
  | Script (url : string) (dev : bool)
  | Ssr (route : string) (t : template)
  | Csr (route : string) (raw : string)
  | Hydrate (route : string) (t : template).

(** What the handler has done to [reply]: the timing flag of the route
    configuration, the content type, the body passed to [send]. *)
Record reply : Type := Reply {
  timing : bool;
  content_type : option string;
  body : option (list part)
}.

(** The collaborators of a route: the state functions set by
    [setContentState] and [setFallbackState] (a truthy result as its JSON
    text, [None] for a falsy one), [readTranslations], and whether a
    rendering call throws. *)
Record env : Type := Env {
  content_state : string -> outcome (option string);
  fallback_state : string -> outcome (option string);
  read_translations : outcome (option string);
  render_error : part -> option Js.error
}.

Definition is_script (p : part) : bool :=
  match p with Script _ _ => true | _ => false end.


(** A body contains a script reference. *)
Definition contains_script (b : list part) : Prop :=
  exists (url : string) (dev : bool), In (Script url dev) b.

Section Plugin.

(** Values read from the configuration and the plugin options. *)
Variables (prefix name : string) (version : option string)
          (locale : string) (development : bool)
          (config_mode : option string) (cwd : string).
(** [await resolve(join(cwd, './content.js'))] and its fallback twin;
    [resolve.js] is not among the sources. *)
Variables (contentFilePath fallbackFilePath : string).
Variables (IE : Importer.env) (RE : env).

(** [config.get('app.mode') || 'hydrate'] *)
Definition mode : string :=
  match config_mode with
  | Some m => if Js.str_truthy m then m else "hydrate"
  | None => "hydrate"
  end.

(** [JSON.stringify(state || '')] *)
Definition initial_state_of (st : option string) : string :=
  match st with
  | Some json => json
  | None => Js.dq +:+ Js.dq
  end.

(** [messages ? JSON.stringify(messages) : ''] *)
Definition translations_of (messages : option string) : string :=
  match messages with
  | Some json => json
  | None => EmptyString
  end.

(** [version] inside a template literal. *)
Definition show_version : string :=
  match version with
  | Some v => v
  | None => "null"
  end.

Definition hydrate_support_url : string :=
  Path.joinURLPathSegments prefix
    "/_/dynamic/modules/@lit-labs/ssr-client/lit-element-hydrate-support.js".

(** The lit template of lines 552-554 and 612-614. *)
Definition template_of (route : string) (translations initialState : string)
  : template :=
  {| tag := name +:+ "-" +:+ route; version_attr := version;
     locale_attr := locale; translations_attr := translations;
     initial_state_attr := initialState |}.

(** The markup string handed to [f.csr]. *)
Definition raw_element (route translations initialState : string) : string :=
  "<" +:+ name +:+ "-" +:+ route +:+ " version=" +:+ Js.dq +:+ show_version
  +:+ Js.dq +:+ " locale='" +:+ locale +:+ "' translations='"
  +:+ translations +:+ "' initial-state='" +:+ initialState +:+ "'></"
  +:+ name +:+ "-" +:+ route +:+ ">".

(** A call of [f.ssr], [f.csr] or [f.hydrate]. *)
Definition render (p : part) : M Importer.world part :=
  match render_error RE p with
  | Some e => throw e
  | None => mret p
  end.

(** [mode === 'hydrate' ? f.script(...) : ''] *)
Definition hydrateSupport : list part :=
  if String.eqb mode "hydrate"
  then [Script hydrate_support_url development]
  else [].

(** Lines 537-540 and 598-601. *)
Definition import_if_rendered_on_server (file : string)
  : M Importer.world unit :=
  if String.eqb mode "ssr-only" || String.eqb mode "hydrate"
  then Importer.importElement name development cwd IE file;; mret tt
  else mret tt.

(** The markup of the content route, lines 565-575: which rendering plugin
    is called. *)
Definition content_markup (translations initialState : string) : part :=
  let template := template_of "content" translations initialState in
  if String.eqb mode "ssr-only" then
    Ssr "content" template
  else if String.eqb mode "csr-only" then
    Csr "content" (raw_element "content" translations initialState)
  else
    Hydrate "content" template.

(** The markup of the fallback route, lines 625-635. *)
Definition fallback_markup (translations initialState : string) : part :=
  let template := template_of "fallback" translations initialState in
  if negb (String.eqb mode "ssr-only") then
    Ssr "fallback" template
  else if String.eqb mode "csr-only" then
    Csr "fallback" (raw_element "fallback" translations initialState)
  else
    Hydrate "fallback" template.

(** [reply.type('text/html; charset=utf-8').send(body)] *)
Definition html_reply (b : list part) : reply :=
  {| timing := true; content_type := Some "text/html; charset=utf-8";
     body := Some b |}.

(** What the [catch] of a handler leaves: the reply as it was, nothing
    sent. *)
Definition untouched_reply : reply :=
  {| timing := true; content_type := None; body := None |}.

(** The handler of the content route. *)
Definition content_handler (request : string) : M Importer.world reply :=
  try_catch
    (import_if_rendered_on_server contentFilePath;;
     st ← of_outcome (content_state RE request);
     let initialState := initial_state_of st in
     messages ← of_outcome (read_translations RE);
     let translations := translations_of messages in
     markup ← render (content_markup translations initialState);
     mret (html_reply (hydrateSupport ++ [markup])))
    (fun err =>
       Importer.write_log (Importer.LogError err);;
       mret untouched_reply).

(** The handler of the fallback route. *)
Definition fallback_handler (request : string) : M Importer.world reply :=
  try_catch
    (import_if_rendered_on_server fallbackFilePath;;
     st ← of_outcome (fallback_state RE request);
     let initialState := initial_state_of st in
     messages ← of_outcome (read_translations RE);
     let translations := translations_of messages in
     markup ← render (fallback_markup translations initialState);
     mret (html_reply (hydrateSupport ++ [markup])))
    (fun err =>
       Importer.write_log (Importer.LogError err);;
       mret untouched_reply).

(** What a handler answers once the import is done, as a function of what
    the state function yields and of the markup of the route. *)
Definition answer (state : outcome (option string))
    (markup : string -> string -> part) (w : Importer.world)
  : outcome reply * Importer.world :=
  match state with
  | Thrown e =>
      (Returned untouched_reply, Importer.add_log (Importer.LogError e) w)
  | Returned st =>
      match read_translations RE with
      | Thrown e =>
          (Returned untouched_reply, Importer.add_log (Importer.LogError e) w)
      | Returned ms =>
          let p := markup (translations_of ms) (initial_state_of st) in
          match render_error RE p with
          | Some e =>
              (Returned untouched_reply,
               Importer.add_log (Importer.LogError e) w)
          | None => (Returned (html_reply (hydrateSupport ++ [p])), w)
          end
      end
  end.

(** The body a handler run has sent, if any. *)
Definition body_of (run : outcome reply * Importer.world)
  : option (list part) :=
  match fst run with
  | Returned r => body r
  | Thrown _ => None
  end.


(** The table of section 4.3 of the specification, as a function of the
    mode: which script markup and which body markup a route is to
    produce. *)
Definition spec_table (route : string) (m : string)
    (translations initialState : string) : option (list part) :=
  let t := template_of route translations initialState in
  if String.eqb m "ssr-only" then Some [Ssr route t]
  else if String.eqb m "csr-only" then
    Some [Csr route (raw_element route translations initialState)]
  else if String.eqb m "hydrate" then
    Some [Script hydrate_support_url development; Hydrate route t]
  else None.

End Plugin.

End Routes.

(** ** The client build context and the client watch handler
       ([api/dev.js], lines 156-256) *)

Module Build.

(** What the path resolver answers: [{ path, exists }]. *)
Record resolution : Type := Resolution {
  path : string;
  exists_ : bool
}.

(** An esbuild context: its identity and the entry points it was opened
    with. *)
Record context : Type := Context {
  ctx_id : nat;
  entryPoints : list string
}.

(** Calls into the resolver and into esbuild, in the order they are made. *)
Inductive event : Type :=
  | EvResolve (logical : string)
  | EvContext (id : nat) (entries : list string)
  | EvServe (id : nat) (port : Z)
  | EvRebuild (id : nat)
  | EvDispose (id : nat).

(** The variables of [dev] that the build context code reads and writes,
    the files on disk, and the calls made. *)
Record world : Type := World {
  disk : gset string;
  clientFiles : list string;
  CONTENT_FILEPATH : option resolution;
  FALLBACK_FILEPATH : option resolution;
  buildContext : context;
  next_id : nat;
  io : list event;
  debug_log : list string
}.

Definition emit (e : event) : M world unit :=
  modify (fun w =>
    {| disk := disk w; clientFiles := clientFiles w;
       CONTENT_FILEPATH := CONTENT_FILEPATH w;
       FALLBACK_FILEPATH := FALLBACK_FILEPATH w;
       buildContext := buildContext w; next_id := next_id w;
       io := io w ++ [e]; debug_log := debug_log w |}).

(** [LOGGER.debug(msg)] *)
Definition debug (msg : string) : M world unit :=
  modify (fun w =>
    {| disk := disk w; clientFiles := clientFiles w;
       CONTENT_FILEPATH := CONTENT_FILEPATH w;
       FALLBACK_FILEPATH := FALLBACK_FILEPATH w;
       buildContext := buildContext w; next_id := next_id w;
       io := io w; debug_log := debug_log w ++ [msg] |}).

Definition set_content (r : resolution) : M world unit :=
  modify (fun w =>
    {| disk := disk w; clientFiles := clientFiles w;
       CONTENT_FILEPATH := Some r;
       FALLBACK_FILEPATH := FALLBACK_FILEPATH w;
       buildContext := buildContext w; next_id := next_id w;
       io := io w; debug_log := debug_log w |}).

Definition set_fallback (r : resolution) : M world unit :=
  modify (fun w =>
    {| disk := disk w; clientFiles := clientFiles w;
       CONTENT_FILEPATH := CONTENT_FILEPATH w;
       FALLBACK_FILEPATH := Some r;
       buildContext := buildContext w; next_id := next_id w;
       io := io w; debug_log := debug_log w |}).

Definition push_clientFiles (l : list string) : M world unit :=
  modify (fun w =>
    {| disk := disk w; clientFiles := clientFiles w ++ l;
       CONTENT_FILEPATH := CONTENT_FILEPATH w;
       FALLBACK_FILEPATH := FALLBACK_FILEPATH w;
       buildContext := buildContext w; next_id := next_id w;
       io := io w; debug_log := debug_log w |}).

Definition set_buildContext (c : context) : M world unit :=
  modify (fun w =>
    {| disk := disk w; clientFiles := clientFiles w;
       CONTENT_FILEPATH := CONTENT_FILEPATH w;
       FALLBACK_FILEPATH := FALLBACK_FILEPATH w;
       buildContext := c; next_id := next_id w;
       io := io w; debug_log := debug_log w |}).

Definition fresh_id : M world nat :=
  fun w =>
    (Returned (next_id w),
     {| disk := disk w; clientFiles := clientFiles w;
        CONTENT_FILEPATH := CONTENT_FILEPATH w;
        FALLBACK_FILEPATH := FALLBACK_FILEPATH w;
        buildContext := buildContext w; next_id := S (next_id w);
        io := io w; debug_log := debug_log w |}).

Definition is_rebuild (e : event) : bool :=
  match e with EvRebuild _ => true | _ => false end.

Definition is_dispose (e : event) : bool :=
  match e with EvDispose _ => true | _ => false end.

Definition is_context (e : event) : bool :=
  match e with EvContext _ _ => true | _ => false end.

Definition count (p : event -> bool) (l : list event) : nat :=
  length (filter (fun e => p e = true) l).

(** [a.join(", ")] *)
Fixpoint join_comma (l : list string) : string :=
  match l with
  | [] => EmptyString
  | [x] => x
  | x :: l' => x +:+ ", " +:+ join_comma l'
  end.

Section Dev.

Variable cwd : string.
(** [resolver.resolve(name)] of [lib/path.js], which is not among the
    sources: a function of the files on disk. *)
Variable resolver : gset string -> string -> resolution.
(** Whether esbuild can rebuild a context given the files on disk. *)
Variable rebuild_result : context -> gset string -> outcome unit.

(** [await resolver.resolve(logical)] *)
Definition resolve (logical : string) : M world resolution :=
  emit (EvResolve logical);;
  w ← get_state;
  mret (resolver (disk w) logical).

(** [if (r.exists) entryPoints.push(r.path)] *)
Definition push_if_exists (r : resolution) (entries : list string)
  : list string :=
  if exists_ r then entries ++ [path r] else entries.

(** [join("dist", entryPoint.replace(cwd, ""))] *)
Definition client_file (entryPoint : string) : string :=
  Path.join "dist" (Path.replace_first cwd EmptyString entryPoint).

(** [createBuildContext()]; esbuild's [context] and [serve] are taken to
    complete: the code has no handler for a failure of these calls. *)
Definition createBuildContext : M world context :=
  content ← resolve "./content";
  set_content content;;
  fallback ← resolve "./fallback";
  set_fallback fallback;;
  scripts ← resolve "./scripts";
  lazy ← resolve "./lazy";
  let entryPoints :=
    push_if_exists lazy
      (push_if_exists scripts
         (push_if_exists fallback
            (push_if_exists content []))) in
  push_clientFiles (map client_file entryPoints);;
  id ← fresh_id;
  emit (EvContext id entryPoints);;
  let ctx := {| ctx_id := id; entryPoints := entryPoints |} in
  emit (EvServe id 6935%Z);;
  mret ctx.

(** [buildContext.rebuild()] *)
Definition rebuild : M world unit :=
  w ← get_state;
  emit (EvRebuild (ctx_id (buildContext w)));;
  of_outcome (rebuild_result (buildContext w) (disk w)).

(** [buildContext.dispose()]; it is taken to complete as well. *)
Definition dispose : M world unit :=
  w ← get_state;
  emit (EvDispose (ctx_id (buildContext w))).

(** [clientFileChange(type)(filename)]; clearing the console and printing
    the banner are left out. *)
Definition clientFileChange (type filename : string) : M world unit :=
  debug ("file " +:+ type +:+ ": " +:+ filename);;
  try_catch rebuild
    (fun _ =>
       dispose;;
       ctx ← createBuildContext;
       set_buildContext ctx);;
  w ← get_state;
  debug ("bundles rebuilt: " +:+ join_comma (clientFiles w)).

(** The entry points that exist on a disk, in the order content, fallback,
    scripts, lazy. *)
Definition existing_entries (d : gset string) : list string :=
  map path
    (filter (fun r => exists_ r = true)
       (map (resolver d) ["./content"; "./fallback"; "./scripts"; "./lazy"])).

(** The entry points as the four pushes collect them. *)
Definition pushed (d : gset string) : list string :=
  push_if_exists (resolver d "./lazy")
    (push_if_exists (resolver d "./scripts")
       (push_if_exists (resolver d "./fallback")
          (push_if_exists (resolver d "./content") []))).

(** The calls of one [createBuildContext()]. *)
Definition creation_calls (id : nat) (d : gset string) : list event :=
  [EvResolve "./content"; EvResolve "./fallback"; EvResolve "./scripts";
   EvResolve "./lazy"; EvContext id (existing_entries d);
   EvServe id 6935%Z].

End Dev.

(** Modelled from the spec: [lib/path.js] is not among the sources.  A
    logical name [./n] resolves to [cwd/n.js] if that file is on disk,
    else to [cwd/n.ts] if that one is, else it is reported absent. *)
Definition js_or_ts (cwd : string) (d : gset string) (logical : string)
  : resolution :=
  let base := Path.join cwd (Path.replace_first "./" EmptyString logical) in
  if bool_decide (base +:+ ".js" ∈ d) then
    {| path := base +:+ ".js"; exists_ := true |}
  else if bool_decide (base +:+ ".ts" ∈ d) then
    {| path := base +:+ ".ts"; exists_ := true |}
  else {| path := base +:+ ".js"; exists_ := false |}.

End Build.

(** ** The development server ([api/dev.js], lines 15-84 and 309-326) *)

Module DevServer.

(** An asynchronous operation has a beginning (the call) and an end (the
    moment its promise settles); [await] is what ties the caller to the
    end. *)
Inductive event : Type :=
  | SetupBegin (app : nat)
  | SetupEnd (app : nat)
  | CloseBegin (app : nat)
  | CloseEnd (app : nat)
  | ListenBegin (app : nat) (port : Z)
  | ListenEnd (app : nat) (port : Z)
  | Reload
  | DisposeBuildContext.

Inductive log_entry : Type :=
  | LogError (e : Js.error)
  | LogInfo (msg : string)
  | LogDebug (msg : string)
  | UnhandledRejection (e : Js.error).

(** [this.app], the instance that holds the configured port (its [listen]
    has ended well and it has not been closed), the [listen] calls and the
    [close] calls that have begun and not ended, and the history. *)
Record state : Type := State {
  app : option nat;
  listening : option nat;
  pending : list nat;
  closing : list nat;
  next_app : nat;
  trace : list event;
  log : list log_entry
}.

Definition emit (e : event) : M state unit :=
  modify (fun s =>
    {| app := app s; listening := listening s; pending := pending s;
       closing := closing s; next_app := next_app s;
       trace := trace s ++ [e]; log := log s |}).

Definition write_log (l : log_entry) : M state unit :=
  modify (fun s =>
    {| app := app s; listening := listening s; pending := pending s;
       closing := closing s; next_app := next_app s;
       trace := trace s; log := log s ++ [l] |}).

(** [this.app = a] *)
Definition set_app (a : nat) : M state unit :=
  modify (fun s =>
    {| app := Some a; listening := listening s; pending := pending s;
       closing := closing s; next_app := next_app s;
       trace := trace s; log := log s |}).

Definition set_listening (l : option nat) : M state unit :=
  modify (fun s =>
    {| app := app s; listening := l; pending := pending s;
       closing := closing s; next_app := next_app s;
       trace := trace s; log := log s |}).

Definition set_closing (c : list nat) : M state unit :=
  modify (fun s =>
    {| app := app s; listening := listening s; pending := pending s;
       closing := c; next_app := next_app s; trace := trace s;
       log := log s |}).

Definition set_pending (p : list nat) : M state unit :=
  modify (fun s =>
    {| app := app s; listening := listening s; pending := p;
       closing := closing s; next_app := next_app s;
       trace := trace s; log := log s |}).

Definition fresh_app : M state nat :=
  fun s =>
    (Returned (next_app s),
     {| app := app s; listening := listening s; pending := pending s;
        closing := closing s; next_app := S (next_app s);
        trace := trace s; log := log s |}).

Definition address_in_use : Js.error := Js.Error "listen EADDRINUSE".

(** The [DevServer] object before [start()]. *)
Definition initial : state :=
  {| app := None; listening := None; pending := []; closing := [];
     next_app := 0; trace := []; log := [] |}.

(** The server answers on the port. *)
Definition reachable (s : state) : bool :=
  match listening s with
  | Some _ => true
  | None => false
  end.

Definition event_eqb (a b : event) : bool :=
  match a, b with
  | SetupBegin x, SetupBegin y | SetupEnd x, SetupEnd y
  | CloseBegin x, CloseBegin y | CloseEnd x, CloseEnd y => Nat.eqb x y
  | ListenBegin x p, ListenBegin y q | ListenEnd x p, ListenEnd y q =>
      Nat.eqb x y && Z.eqb p q
  | Reload, Reload | DisposeBuildContext, DisposeBuildContext => true
  | _, _ => false
  end.

(** Position of the first event equal to [e]. *)
Fixpoint index_of (e : event) (l : list event) : option nat :=
  match l with
  | [] => None
  | x :: l' => if event_eqb e x then Some 0 else S <$> index_of e l'
  end.

(** [a] and [b] both occur, [a] before [b]. *)
Definition before (a b : event) (l : list event) : Prop :=
  match index_of a l, index_of b l with
  | Some i, Some j => i < j
  | _, _ => False
  end.

Section Server.

(** [config.get("app.port")] *)
Variable port : Z.
(** Whether building an instance (registering the server plugins)
    succeeds, whether [local.reload()] does, and which of the two
    operations under [Promise.all] ends first. *)
Variable setup_result : nat -> outcome unit.
Variable reload_result : outcome unit.
Variable close_ends_first : bool.

(** The call [this.setup()]: a new fastify instance comes into being. *)
Definition setup_begin : M state nat :=
  n ← fresh_app;
  emit (SetupBegin n);;
  mret n.

(** The end of [setup()]: the instance, or the error of a plugin. *)
Definition setup_end (n : nat) : M state unit :=
  of_outcome (setup_result n);;
  emit (SetupEnd n).

(** One occurrence of [a] less. *)
Fixpoint remove_one (a : nat) (l : list nat) : list nat :=
  match l with
  | [] => []
  | b :: l' => if Nat.eqb a b then l' else b :: remove_one a l'
  end.

(** The call [this.app?.close()]: nothing to close before the first
    start. *)
Definition close_begin : M state (option nat) :=
  s ← get_state;
  match app s with
  | Some a =>
      emit (CloseBegin a);;
      set_closing (closing s ++ [a]);;
      mret (Some a)
  | None => mret None
  end.

(** The end of [close()]: the instance no longer holds the port. *)
Definition close_end (c : option nat) : M state unit :=
  match c with
  | Some a =>
      emit (CloseEnd a);;
      s ← get_state;
      set_closing (remove_one a (closing s));;
      if bool_decide (listening s = Some a) then set_listening None
      else mret tt
  | None => mret tt
  end.

(** The call [app.listen({ port })]. *)
Definition listen_begin (a : nat) : M state unit :=
  emit (ListenBegin a port);;
  s ← get_state;
  set_pending (pending s ++ [a]).

(** The end of a [listen]: the port is taken if it is free; only one
    instance may hold it. *)
Definition listen_end (a : nat) : M state unit :=
  s ← get_state;
  set_pending (filter (fun b => b ≠ a) (pending s));;
  match listening s with
  | None => set_listening (Some a);; emit (ListenEnd a port)
  | Some _ => throw address_in_use
  end.

(** [start()]: both the setup and the listen are awaited. *)
Definition start : M state unit :=
  n ← setup_begin;
  setup_end n;;
  set_app n;;
  listen_begin n;;
  listen_end n;;
  write_log (LogInfo "Development server listening").

(** [await Promise.all([this.setup(), this.app?.close()])]: both calls are
    made before either is waited for; the result is there when both have
    ended.  A rejection of the setup is raised at once: when the close has
    not ended by then, the caller goes on while the close is still under
    way. *)
Definition setup_and_close : M state nat :=
  n ← setup_begin;
  c ← close_begin;
  (if close_ends_first then
     close_end c;; setup_end n
   else
     setup_end n;; close_end c);;
  mret n.

(** [restart()]: the listen call is made and not awaited. *)
Definition restart : M state unit :=
  n ← setup_and_close;
  set_app n;;
  listen_begin n.

(** [serverFileChange(type)(filename)]; clearing the console and printing
    the banner are left out. *)
Definition serverFileChange (type filename : string) : M state unit :=
  write_log (LogDebug ("file " +:+ type +:+ ": " +:+ filename));;
  try_catch
    (emit Reload;; of_outcome reload_result;; restart)
    (fun err => write_log (LogError err);; emit DisposeBuildContext);;
  write_log (LogDebug "server restarted").

(** What the event loop does with the listen calls nobody waits for: each
    ends in its turn, and a failure has no handler. *)
Fixpoint settle_all (l : list nat) (s : state) : state :=
  match l with
  | [] => s
  | a :: l' =>
      match listen_end a s with
      | (Returned _, s') => settle_all l' s'
      | (Thrown e, s') =>
          settle_all l' (snd (write_log (UnhandledRejection e) s'))
      end
  end.

(** The close calls nobody waits for any more end as well; a close does
    not fail. *)
Fixpoint close_all (l : list nat) (s : state) : state :=
  match l with
  | [] => s
  | a :: l' => close_all l' (snd (close_end (Some a) s))
  end.

(** The event loop brings what is under way to its end.  The code fixes
    no order between a close and a listen that are both under way; the
    closes are taken first here. *)
Definition settle (s : state) : state :=
  let s1 := close_all (closing s) s in
  settle_all (pending s1) s1.

End Server.

End DevServer.

(** ** Series of [define] calls, and the shape of joined paths *)

Module RegistrySeries.

(** One [define] call after the other, each error caught by the caller:
    what the registry holds in the end. *)
Fixpoint define_all (calls : list (string * Js.value)) (r : Registry.t)
  : Registry.t :=
  match calls with
  | [] => r
  | (name, ctor) :: rest =>
      define_all rest (snd (Registry.define name ctor r))
  end.

End RegistrySeries.

Module PathShape.

(** No slash is followed by another slash. *)
Fixpoint no_double_slash (s : string) : bool :=
  match s with
  | EmptyString => true
  | String c s' =>
      match s' with
      | EmptyString => true
      | String c' _ =>
          negb (Path.is_slash c && Path.is_slash c') && no_double_slash s'
      end
  end.

(** Every character is a slash. *)
Fixpoint all_slashes (s : string) : bool :=
  match s with
  | EmptyString => true
  | String c s' => Path.is_slash c && all_slashes s'
  end.

End PathShape.

(** ** Series of [importElement] calls *)

Module ImporterSeries.

(** One call after the other, each error caught by the caller (the route
    handlers do so): the world in the end. *)
Fixpoint import_all (appName : string) (development : bool) (cwd : string)
    (E : Importer.env) (paths : list string) (w : Importer.world)
  : Importer.world :=
  match paths with
  | [] => w
  | path :: rest =>
      import_all appName development cwd E rest
        (snd (Importer.importElement appName development cwd E path w))
  end.

End ImporterSeries.

(** ** The client watcher ([api/dev.js], lines 215-267) *)

Module Watch.

(** What reaches the client watcher: it becomes ready, a file event of
    some kind arrives, or, between two events, the files on disk change. *)
Inductive input : Type :=
  | Ready
  | File (kind filename : string)
  | Disk (d : gset string).

(** The listeners the [ready] callback registers, lines 260-262: the kind
    of event and the label its handler is made with. *)
Definition on_ready : list (string * string) :=
  [("change", "changed"); ("add", "added"); ("unlink", "deleted")].

Definition set_disk (d : gset string) (w : Build.world) : Build.world :=
  {| Build.disk := d; Build.clientFiles := Build.clientFiles w;
     Build.CONTENT_FILEPATH := Build.CONTENT_FILEPATH w;
     Build.FALLBACK_FILEPATH := Build.FALLBACK_FILEPATH w;
     Build.buildContext := Build.buildContext w;
     Build.next_id := Build.next_id w; Build.io := Build.io w;
     Build.debug_log := Build.debug_log w |}.





(** The kinds of event a handler is registered for. *)
Definition handled_kind (kind : string) : bool :=
  String.eqb kind "change" || String.eqb kind "add"
  || String.eqb kind "unlink".

(** How many of the listeners are registered for a kind of event. *)
Fixpoint registered (kind : string) (listeners : list (string * string))
  : nat :=
  match listeners with
  | [] => 0
  | (k, _) :: rest =>
      (if String.eqb k kind then 1 else 0) + registered kind rest
  end.

(** One rebuild for every change, add or unlink event and every [ready]
    that came before it. *)
Fixpoint rebuilds_expected (readies : nat) (inputs : list input) : nat :=
  match inputs with
  | [] => 0
  | Ready :: rest => rebuilds_expected (S readies) rest
  | File kind _ :: rest =>
      (if handled_kind kind then readies else 0)
      + rebuilds_expected readies rest
  | Disk _ :: rest => rebuilds_expected readies rest
  end.

Fixpoint has_ready (inputs : list input) : bool :=
  match inputs with
  | [] => false
  | Ready :: _ => true
  | _ :: rest => has_ready rest
  end.

Section Dev.

Variable cwd : string.
Variable resolver : gset string -> string -> Build.resolution.
Variable rebuild_result : Build.context -> gset string -> outcome unit.


(** An event of some kind is emitted: every listener registered for the
    kind runs, in the order of registration.  Each handler is taken to
    its end before the next one starts. *)
Fixpoint dispatch (listeners : list (string * string))
    (kind filename : string) (w : Build.world) : Build.world :=
  match listeners with
  | [] => w
  | (k, type) :: rest =>
      if String.eqb k kind then
        dispatch rest kind filename
          (snd (Build.clientFileChange cwd resolver rebuild_result
                  type filename w))
      else dispatch rest kind filename w
  end.

(** The watcher over a series of inputs: [ready] registers the three
    listeners, a file event is dispatched to the listeners registered so
    far. *)
Fixpoint run (inputs : list input) (listeners : list (string * string))
    (w : Build.world) : list (string * string) * Build.world :=
  match inputs with
  | [] => (listeners, w)
  | Ready :: rest => run rest (listeners ++ on_ready) w
  | File kind filename :: rest =>
      run rest listeners (dispatch listeners kind filename w)
  | Disk d :: rest => run rest listeners (set_disk d w)
  end.

End Dev.

End Watch.

(** ** The root route of the development server *)

(** [DevServer.setup()] of [api/dev.js], lines 36-47: the handlers it
    declares for [GET /] on the new instance, in the order of the calls.
    Declaring the same route twice on one instance is an error in
    fastify. *)
Module RootRoute.

(** Where a handler redirects to. *)
Inductive target : Type :=
  | ToManifest
  | ToContent.

Section Setup.

(** [this.content], and [config.get("app.base")] and
    [config.get("podlet.content")]. *)
Variable content : bool.
Variables (base contentPath : string).

Definition declared : list target :=
  (if negb content then [ToManifest] else [])
  ++ (if negb (String.eqb (Path.joinURLPathSegments base contentPath) "/")
         && content
      then [ToContent] else []).

End Setup.

End RootRoute.

(** ** Settings with a default *)

(** The options of the timing plugin as the server plugin reads them,
    lines 431-433 of the second file. *)
Module Defaults.

(** [v || d] *)
Definition or_else (v d : Js.value) : Js.value :=
  if Js.truthy v then v else d.

Section Config.

(** [config.get] *)
Variable get : string -> Js.value.

Definition timeAllRoutes : Js.value :=
  or_else (get "metrics.timing.timeAllRoutes") (Js.VBool true).

Definition groupStatusCodes : Js.value :=
  or_else (get "metrics.timing.groupStatusCodes") (Js.VBool true).

End Config.

End Defaults.

(** ** Concrete surroundings, for the examples *)

Module Samples.

(** A component class with one observed attribute. *)
Definition class_A : Js.value := Js.VClass 1 (Some ["open"]).

(** A registry in which [app-content] has been defined once. *)
Definition registered_content (dev : bool) : Registry.t :=
  snd (Registry.define "app-content" class_A (Registry.create dev)).

(** Everything works: the source is found, the bundler writes the bundle,
    the bundle exports [class_A]. *)
Definition env_ok : Importer.env :=
  {| Importer.require_resolve := fun p => Returned p;
     Importer.esbuild_build := fun _ _ => Importer.BuildOk;
     Importer.module_code := fun _ => Importer.Stop;
     Importer.module_default := fun _ => Returned class_A |}.

(** The bundle has no default export. *)
Definition env_no_default : Importer.env :=
  {| Importer.require_resolve := fun p => Returned p;
     Importer.esbuild_build := fun _ _ => Importer.BuildOk;
     Importer.module_code := fun _ => Importer.Stop;
     Importer.module_default := fun _ => Returned Js.VUndefined |}.

(** The source file cannot be located. *)
Definition env_source_missing : Importer.env :=
  {| Importer.require_resolve :=
       fun p => Thrown (Js.Error ("Cannot find module '" +:+ p +:+ "'"));
     Importer.esbuild_build := fun _ _ => Importer.BuildOk;
     Importer.module_code := fun _ => Importer.Stop;
     Importer.module_default := fun _ => Returned class_A |}.

(** The bundler writes the bundle and then rejects, as it does when a
    build plugin reports an error at the end of the build. *)
Definition build_error : Js.error := Js.Error "Build failed with 1 error".

Definition env_build_rejects : Importer.env :=
  {| Importer.require_resolve := fun p => Returned p;
     Importer.esbuild_build := fun _ _ => Importer.BuildFailed build_error true;
     Importer.module_code := fun _ => Importer.Stop;
     Importer.module_default := fun _ => Returned class_A |}.

(** A production process in which [app-content] is registered. *)
Definition world_registered : Importer.world :=
  {| Importer.customElements := registered_content false;
     Importer.files := ∅; Importer.io := []; Importer.log := [] |}.

(** A route whose collaborators all answer. *)
Definition renv_ok : Routes.env :=
  {| Routes.content_state := fun _ => Returned (Some "{}");
     Routes.fallback_state := fun _ => Returned None;
     Routes.read_translations := Returned None;
     Routes.render_error := fun _ => None |}.

(** Before line 208 of [api/dev.js] nothing is held in [buildContext]; the
    placeholder below is replaced before any handler is registered. *)
Definition boot (d : gset string) : Build.world :=
  {| Build.disk := d; Build.clientFiles := [];
     Build.CONTENT_FILEPATH := None; Build.FALLBACK_FILEPATH := None;
     Build.buildContext := {| Build.ctx_id := 0; Build.entryPoints := [] |};
     Build.next_id := 0; Build.io := []; Build.debug_log := [] |}.

(** [let buildContext = await createBuildContext()] in a project at
    [/app]. *)
Definition started_up (d : gset string) : Build.world :=
  snd ((ctx ← Build.createBuildContext "/app" (Build.js_or_ts "/app");
        Build.set_buildContext ctx) (boot d)).

(** The files change on disk. *)
Definition with_disk (d : gset string) (w : Build.world) : Build.world :=
  {| Build.disk := d; Build.clientFiles := Build.clientFiles w;
     Build.CONTENT_FILEPATH := Build.CONTENT_FILEPATH w;
     Build.FALLBACK_FILEPATH := Build.FALLBACK_FILEPATH w;
     Build.buildContext := Build.buildContext w;
     Build.next_id := Build.next_id w; Build.io := Build.io w;
     Build.debug_log := Build.debug_log w |}.

Definition disk_two : gset string :=
  {[ "/app/content.js"; "/app/scripts.js" ]}.

Definition disk_three : gset string :=
  {[ "/app/content.js"; "/app/scripts.js"; "/app/fallback.ts" ]}.

(** esbuild cannot rebuild once the files differ from those the context
    was opened on. *)
Definition stale_when_changed (opened_on : gset string)
    (c : Build.context) (d : gset string) : outcome unit :=
  if bool_decide (d = opened_on) then Returned tt
  else Thrown (Js.Error "Could not resolve").

(** Building a server instance succeeds. *)
Definition setup_ok (n : nat) : outcome unit := Returned tt.

(** The server after [devServer.start()] on port 3000. *)
Definition first_started : DevServer.state :=
  snd (DevServer.start 3000 setup_ok DevServer.initial).

End Samples.

(** * Properties *)

(** ** The custom element registry *)

Module RegistryFacts.
Import Registry Samples.

(** The three ways a call of [define] can go. *)
Lemma define_cases (name : string) (ctor : Js.value) (r : t) :
  (define name ctor r = (Returned tt, r) /\
   (Js.str_truthy name = false \/ Js.truthy ctor = false)) \/
  (define name ctor r = (Thrown (already_used name), r) /\
   Js.str_truthy name = true /\ Js.truthy ctor = true /\
   development r = false /\ has r name = true) \/
  (define name ctor r =
     (Returned tt,
      set name
        {| ctor := ctor;
           observedAttributes := Js.observedAttributes_or_empty ctor |} r) /\
   Js.str_truthy name = true /\ Js.truthy ctor = true /\
   (development r = true \/ has r name = false)).
Proof.
  unfold define.
  destruct (Js.str_truthy name) eqn:Hn; destruct (Js.truthy ctor) eqn:Hc;
    simpl; auto.
  destruct (development r) eqn:Hd; simpl; auto 10.
  destruct (has r name) eqn:Hh; auto 10.
Qed.

Lemma define_keeps_mode (name : string) (ctor : Js.value) (r : t) :
  development (snd (define name ctor r)) = development r.
Proof.
  destruct (define_cases name ctor r) as [[-> _]|[[-> _]|[-> _]]];
    reflexivity.
Qed.

(** Every entry of a registry got there through [define], which stores
    neither an empty name nor a falsy constructor. *)
Lemma reachable_entries (r : t) :
  reachable r ->
  forall (n : string) (d : definition),
    definitions r !! n = Some d ->
    Js.str_truthy n = true /\ Js.truthy (ctor d) = true.
Proof.
  induction 1 as [dev | r name c Hr IH]; intros n d Hnd.
  - simpl in Hnd. rewrite lookup_empty in Hnd. discriminate.
  - destruct (define_cases name c r)
      as [[E _]|[[E _]|[E (Hn & Hc & _)]]]; rewrite E in Hnd; simpl in Hnd;
      eauto.
    destruct (decide (name = n)) as [->|Hne].
    + rewrite lookup_insert_eq in Hnd. injection Hnd as <-. auto.
    + rewrite lookup_insert_ne in Hnd by assumption. eauto.
Qed.

Lemma has_lookup (r : t) (name : string) :
  has r name = true <-> is_Some (definitions r !! name).
Proof.
  unfold has. destruct (definitions r !! name); split; intros H;
    try reflexivity; try discriminate; eauto.
  destruct H; discriminate.
Qed.

Lemma get_set (r : t) (name : string) (d : definition) :
  get (set name d r) name = ctor d.
Proof. unfold get, set. simpl. by rewrite lookup_insert_eq. Qed.

Lemma registered_content_reachable (dev : bool) :
  reachable (registered_content dev).
Proof. unfold registered_content. apply reach_define, reach_create. Qed.

(** C10: [define(name, ctor)] with a falsy [name] or a falsy [ctor] returns
    without raising and leaves the registry as it is, whatever the mode of
    the registry; in particular an entry already stored under [name]
    stays. *)
Theorem define_falsy_returns_unchanged
    (r : t) (name : string) (ctor : Js.value) :
  Js.str_truthy name = false \/ Js.truthy ctor = false ->
  define name ctor r = (Returned tt, r) /\
  definitions (snd (define name ctor r)) !! name = definitions r !! name.
Proof.
  intros H.
  assert (E : define name ctor r = (Returned tt, r)).
  { unfold define. destruct H as [-> | ->]; simpl; try reflexivity.
    by rewrite orb_true_r. }
  by rewrite E.
Qed.

Lemma define_falsy_returns_unchanged_witness :
  define "app-content" Js.VUndefined (registered_content false)
    = (Returned tt, registered_content false) /\
  definitions
    (snd (define "app-content" Js.VUndefined (registered_content false)))
    !! "app-content"
    = definitions (registered_content false) !! "app-content".
Proof.
  apply (define_falsy_returns_unchanged (registered_content false)
           "app-content" Js.VUndefined).
  right. reflexivity.
Defined.

(** C7, as the claim words it, fails: in production mode [define] called
    again with a registered name and [undefined] raises nothing. *)
Lemma define_again_undefined_raises_nothing :
  reachable (registered_content false) /\
  development (registered_content false) = false /\
  has (registered_content false) "app-content" = true /\
  define "app-content" Js.VUndefined (registered_content false)
    = (Returned tt, registered_content false) /\
  ~ (exists e : Js.error,
       fst (define "app-content" Js.VUndefined (registered_content false))
         = Thrown e).
Proof.
  split; [apply registered_content_reachable|].
  repeat split; try reflexivity.
  intros [e He]. vm_compute in He. discriminate.
Qed.

(** C7 (amended): for every name already in the registry, [define] called
    again with that name and a truthy constructor raises, in production
    mode, an error whose message quotes the name, and leaves the registry
    as it is; in development mode it returns and the entry is replaced by
    the new constructor and its observed attributes. *)
Theorem define_again_truthy
    (r : t) (name : string) (ctor : Js.value) :
  reachable r ->
  has r name = true ->
  Js.truthy ctor = true ->
  (development r = false ->
     define name ctor r = (Thrown (already_used name), r) /\
     exists pre post : string,
       Js.message (already_used name) = pre +:+ name +:+ post) /\
  (development r = true ->
     fst (define name ctor r) = Returned tt /\
     definitions (snd (define name ctor r)) !! name
       = Some {| ctor := ctor;
                 observedAttributes := Js.observedAttributes_or_empty ctor |} /\
     get (snd (define name ctor r)) name = ctor).
Proof.
  intros Hr Hhas Hc.
  assert (Hn : Js.str_truthy name = true).
  { apply has_lookup in Hhas as [d Hd].
    apply (reachable_entries r Hr name d Hd). }
  unfold define. rewrite Hn, Hc, Hhas. simpl. split; intros ->; simpl.
  - split; [reflexivity|].
    exists ("Failed to execute 'define' on 'CustomElementRegistry': the name "
            +:+ Js.dq),
           (Js.dq +:+ " has already been used with this registry").
    reflexivity.
  - split; [reflexivity|]. rewrite lookup_insert_eq. split; [reflexivity|].
    unfold get. simpl. by rewrite lookup_insert_eq.
Qed.

Lemma define_again_truthy_witness :
  (define "app-content" (Js.VClass 2 None) (registered_content false)
     = (Thrown (already_used "app-content"), registered_content false) /\
   exists pre post : string,
     Js.message (already_used "app-content")
       = pre +:+ "app-content" +:+ post) /\
  get (snd (define "app-content" (Js.VClass 2 None) (registered_content true)))
    "app-content" = Js.VClass 2 None.
Proof.
  split.
  - destruct (define_again_truthy (registered_content false) "app-content"
                (Js.VClass 2 None) (registered_content_reachable false)
                eq_refl eq_refl) as [Hproduction _].
    exact (Hproduction eq_refl).
  - destruct (define_again_truthy (registered_content true) "app-content"
                (Js.VClass 2 None) (registered_content_reachable true)
                eq_refl eq_refl) as [_ Hdevelopment].
    destruct (Hdevelopment eq_refl) as (_ & _ & Hget).
    exact Hget.
Defined.

End RegistryFacts.

(** ** The element importer *)

Module ImporterFacts.
Import Importer Samples.

Ltac unfold_monad :=
  cbv [mbind M_bind bind mret M_ret ret try_catch throw get_state modify
       of_outcome emit write_log write_file].

Section Plugin.
Variables (appName : string) (cwd : string) (E : env).

(** *** The four steps, as equations *)

Lemma resolve_step_eq (development : bool) (path : string) (w : world) :
  resolve_step development E path w =
  match require_resolve E path with
  | Returned p => (Returned p, add_io (EvResolve path) w)
  | Thrown e =>
      (if development then Returned EmptyString else Thrown e,
       add_log (LogError e) (add_io (EvResolve path) w))
  end.
Proof.
  unfold resolve_step, resolve_source. unfold_monad.
  destruct (require_resolve E path); [reflexivity|].
  destruct development; reflexivity.
Qed.

Lemma bundle_step_eq
    (development : bool) (filepath outfile : string) (w : world) :
  bundle_step development E filepath outfile w =
  (Returned tt,
   if development || negb (bool_decide (outfile ∈ files w)) then
     after_build E filepath outfile
       (add_io (EvBuild filepath outfile)
          (add_log
             (LogDebug ("Bundling " +:+ filepath +:+ " to " +:+ outfile))
             (add_io (EvStat outfile) w)))
   else add_io (EvStat outfile) w).
Proof.
  unfold bundle_step, stat_exists, build, after_build. unfold_monad. simpl.
  destruct (development || negb (bool_decide (outfile ∈ files w)));
    [|reflexivity].
  destruct (esbuild_build E filepath outfile) as [|e []]; reflexivity.
Qed.

Lemma import_step_eq (development : bool) (outfile : string) (w : world) :
  import_step development E outfile w =
  match import_result E outfile w with
  | Returned v =>
      (Returned v,
       with_registry (registry_after_import E outfile w)
         (add_io (EvImport outfile) w))
  | Thrown e =>
      (if development then Returned Js.VUndefined else Thrown e,
       add_log (LogError e)
         (with_registry (registry_after_import E outfile w)
            (add_io (EvImport outfile) w)))
  end.
Proof.
  unfold import_step, import_default, import_result, registry_after_import,
    on_registry.
  unfold_monad. cbn [files customElements add_io].
  destruct (bool_decide (outfile ∈ files w)).
  - cbv beta. cbn [customElements add_io].
    destruct (evaluate (module_code E outfile) (customElements w))
      as [[[]|e] r]; cbn [snd].
    + destruct (module_default E outfile); [reflexivity|].
      destruct development; reflexivity.
    + destruct development; reflexivity.
  - destruct w. destruct development; reflexivity.
Qed.

Lemma define_step_eq
    (development : bool) (key : string) (v : Js.value) (w : world) :
  define_step development key v w =
  match Registry.define key v (customElements w) with
  | (Returned _, r) => (Returned tt, with_registry r w)
  | (Thrown e, r) =>
      (if development then Returned tt else Thrown e,
       add_log (LogError e) (with_registry r w))
  end.
Proof.
  unfold define_step, on_registry. unfold_monad.
  destruct (Registry.define key v (customElements w)) as [[[]|e] r];
    [reflexivity|].
  destruct development; reflexivity.
Qed.

(** The whole function, as a chain of its steps. *)
Lemma importElement_eq (development : bool) (path : string) (w : world) :
  importElement appName development cwd E path w =
  if negb (usable_name path) then (Thrown (invalid_path path), w)
  else if already_defined appName development path w
  then (Returned Js.VUndefined, w)
  else
    match resolve_step development E path w with
    | (Thrown e, w1) => (Thrown e, w1)
    | (Returned filepath, w1) =>
        match import_step development E (outfile_of cwd path)
                (snd (bundle_step development E filepath
                        (outfile_of cwd path) w1)) with
        | (Thrown e, w3) => (Thrown e, w3)
        | (Returned v, w3) =>
            match define_step development
                    (key_of appName (Path.parse_name path)) v w3 with
            | (Thrown e, w4) => (Thrown e, w4)
            | (Returned _, w4) => (Returned Js.VUndefined, w4)
            end
        end
    end.
Proof.
  unfold importElement.
  destruct (negb (usable_name path)); [reflexivity|].
  cbv [mbind M_bind bind get_state].
  destruct (already_defined appName development path w); [reflexivity|].
  destruct (resolve_step development E path w) as [[fp|e] w1]; [|reflexivity].
  rewrite bundle_step_eq. cbn [snd].
  destruct (import_step _ _ _ _) as [[v|e] w3]; [|reflexivity].
  destruct (define_step _ _ _ _) as [[[]|e] w4]; reflexivity.
Qed.

(** *** The calls each step adds *)

Lemma io_after_build (f o : string) (w : world) :
  io (after_build E f o w) = io w.
Proof.
  unfold after_build.
  destruct (esbuild_build E f o) as [|e []]; reflexivity.
Qed.

Lemma io_bundle_step
    (development : bool) (filepath outfile : string) (w : world) :
  io (snd (bundle_step development E filepath outfile w)) =
  io w ++ EvStat outfile ::
    (if development || negb (bool_decide (outfile ∈ files w))
     then [EvBuild filepath outfile] else []).
Proof.
  rewrite bundle_step_eq. cbn [snd].
  destruct (development || negb (bool_decide (outfile ∈ files w))).
  - rewrite io_after_build. cbn. by rewrite <- app_assoc.
  - reflexivity.
Qed.

Lemma io_import_step (development : bool) (outfile : string) (w : world) :
  io (snd (import_step development E outfile w)) = io w ++ [EvImport outfile].
Proof.
  rewrite import_step_eq.
  destruct (import_result E outfile w); reflexivity.
Qed.

Lemma io_define_step
    (development : bool) (key : string) (v : Js.value) (w : world) :
  io (snd (define_step development key v w)) = io w.
Proof.
  rewrite define_step_eq.
  destruct (Registry.define key v (customElements w)) as [[[]|e] r];
    reflexivity.
Qed.

(** What follows the resolve step adds a stat, a build if the bundle is to
    be built, and an import, however the import and the define end. *)
Lemma io_from_bundle_step
    (development : bool) (filepath outfile key : string) (w : world) :
  io (snd (match import_step development E outfile
                   (snd (bundle_step development E filepath outfile w)) with
           | (Thrown e, w3) => (Thrown e, w3)
           | (Returned v, w3) =>
               match define_step development key v w3 with
               | (Thrown e, w4) => (Thrown e, w4)
               | (Returned _, w4) => (Returned Js.VUndefined, w4)
               end
           end)) =
  io w ++ EvStat outfile ::
    (if development || negb (bool_decide (outfile ∈ files w))
     then [EvBuild filepath outfile] else [])
    ++ [EvImport outfile].
Proof.
  pose proof (io_import_step development outfile
                (snd (bundle_step development E filepath outfile w))) as Hi.
  rewrite io_bundle_step in Hi.
  destruct (import_step _ _ _ _) as [[v|e] w3]; cbn [snd] in Hi.
  - pose proof (io_define_step development key v w3) as Hd.
    destruct (define_step _ _ _ _) as [[[]|e] w4]; cbn [snd] in *;
      rewrite Hd, Hi, <- app_assoc; reflexivity.
  - cbn [snd]. rewrite Hi, <- app_assoc. reflexivity.
Qed.

(** The calls of a run, in order. *)
Lemma started_eq (development : bool) (path : string) (w : world) :
  started appName development cwd E path w =
  if negb (usable_name path) || already_defined appName development path w
  then []
  else
    EvResolve path ::
    match require_resolve E path with
    | Thrown _ =>
        if development then
          [EvStat (outfile_of cwd path);
           EvBuild EmptyString (outfile_of cwd path);
           EvImport (outfile_of cwd path)]
        else []
    | Returned filepath =>
        EvStat (outfile_of cwd path) ::
        (if development || negb (bool_decide (outfile_of cwd path ∈ files w))
         then [EvBuild filepath (outfile_of cwd path)] else [])
        ++ [EvImport (outfile_of cwd path)]
    end.
Proof.
  unfold started. rewrite importElement_eq.
  destruct (negb (usable_name path)); cbn [orb snd];
    [by rewrite drop_all|].
  destruct (already_defined appName development path w); cbn [snd];
    [by rewrite drop_all|].
  rewrite resolve_step_eq.
  destruct (require_resolve E path) as [fp|e].
  - rewrite io_from_bundle_step. cbn [io files add_io].
    by rewrite <- app_assoc, drop_app_length.
  - destruct development; cbv beta iota.
    + rewrite io_from_bundle_step. cbn [io files add_io add_log orb].
      by rewrite <- app_assoc, drop_app_length.
    + cbn. by rewrite drop_app_length.
Qed.

Lemma key_truthy (name : string) :
  Js.str_truthy (key_of appName name) = true.
Proof. unfold key_of. destruct appName; reflexivity. Qed.

(** The production fast path. *)
Lemma fast_path (path : string) (w : world) :
  usable_name path = true ->
  Js.truthy (Registry.get (customElements w)
               (key_of appName (Path.parse_name path))) = true ->
  importElement appName false cwd E path w = (Returned Js.VUndefined, w) /\
  started appName false cwd E path w = [].
Proof.
  intros Hu Hr.
  assert (Ha : already_defined appName false path w = true).
  { unfold already_defined. by rewrite Hr. }
  split.
  - rewrite importElement_eq, Hu, Ha. reflexivity.
  - rewrite started_eq, Hu, Ha. reflexivity.
Qed.

(** An import that yields a value yields the default export. *)
Lemma import_result_returned (outfile : string) (w : world) (v : Js.value) :
  import_result E outfile w = Returned v ->
  module_default E outfile = Returned v.
Proof.
  unfold import_result.
  destruct (bool_decide (outfile ∈ files w)); [|discriminate].
  destruct (evaluate (module_code E outfile) (customElements w))
    as [[[]|e] r]; [trivial|discriminate].
Qed.

(** After a production run that returned, the key holds whatever truthy
    default export the bundle has. *)
Lemma returned_registers (path : string) (w : world) (v c : Js.value) :
  importElement appName false cwd E path w
    = (Returned v, snd (importElement appName false cwd E path w)) ->
  module_default E (outfile_of cwd path) = Returned c ->
  Js.truthy c = true ->
  Js.truthy
    (Registry.get
       (customElements (snd (importElement appName false cwd E path w)))
       (key_of appName (Path.parse_name path))) = true.
Proof.
  rewrite importElement_eq.
  destruct (negb (usable_name path)); [discriminate|].
  destruct (already_defined appName false path w) eqn:Ha.
  { intros _ _ _. cbn [snd]. unfold already_defined in Ha. exact Ha. }
  rewrite resolve_step_eq.
  destruct (require_resolve E path) as [fp|e]; [|discriminate].
  rewrite import_step_eq.
  destruct (import_result _ _ _) as [v'|e] eqn:Hi; [|discriminate].
  apply import_result_returned in Hi.
  intros H Hm Hc. revert H. rewrite Hm in Hi. injection Hi as <-.
  rewrite define_step_eq.
  match goal with
  | |- context [Registry.define ?k ?x ?r] =>
      destruct (RegistryFacts.define_cases k x r)
        as [[Hd [Hk|Hk]]|[[Hd _]|[Hd _]]]; rewrite Hd; cbn [snd]
  end.
  - by rewrite key_truthy in Hk.
  - congruence.
  - discriminate.
  - intros _. unfold with_registry. cbn.
    rewrite RegistryFacts.get_set. exact Hc.
Qed.

End Plugin.

(** The bundling step never raises, in either mode. *)
Lemma bundle_step_never_raises
    (development : bool) (E : env) (filepath outfile : string) (w : world) :
  fst (bundle_step development E filepath outfile w) = Returned tt.
Proof. by rewrite bundle_step_eq. Qed.

(** In development mode a call with a usable name never raises, whatever
    fails on the way. *)
Lemma development_never_raises
    (appName cwd : string) (E : env) (path : string) (w : world) :
  usable_name path = true ->
  fst (importElement appName true cwd E path w) = Returned Js.VUndefined.
Proof.
  intros Hu. rewrite importElement_eq, Hu. cbn [negb].
  unfold already_defined. cbn [negb andb].
  rewrite resolve_step_eq.
  destruct (require_resolve E path) as [fp|e];
    rewrite import_step_eq;
    destruct (import_result _ _ _) as [v|e'];
    rewrite define_step_eq;
    destruct (Registry.define _ _ _) as [[[]|e''] r]; reflexivity.
Qed.

(** In production mode a failing import ends the call with its error. *)
Lemma production_import_failure_raises
    (appName cwd : string) (E : env) (path filepath : string) (w : world)
    (e : Js.error) :
  usable_name path = true ->
  already_defined appName false path w = false ->
  require_resolve E path = Returned filepath ->
  import_result E (outfile_of cwd path)
    (snd (bundle_step false E filepath (outfile_of cwd path)
            (add_io (EvResolve path) w))) = Thrown e ->
  fst (importElement appName false cwd E path w) = Thrown e.
Proof.
  intros Hu Ha Hr Hi.
  rewrite importElement_eq, Hu, Ha, resolve_step_eq, Hr, import_step_eq, Hi.
  reflexivity.
Qed.

(** C3, as the claim words it, fails twice over.  A production call on a
    registered key returns [undefined], not the registered constructor;
    and when the bundle has no default export, two production calls with
    one path both return and both import the bundle. *)
Lemma production_call_returns_undefined_and_can_import_twice :
  (Registry.get (customElements world_registered) "app-content" = class_A /\
   fst (importElement "app" false "/app" env_ok "/app/content.js"
          world_registered) = Returned Js.VUndefined /\
   Js.VUndefined <> class_A) /\
  (let first := importElement "app" false "/app" env_no_default
                  "/app/content.js" (init false) in
   let second := importElement "app" false "/app" env_no_default
                   "/app/content.js" (snd first) in
   fst first = Returned Js.VUndefined /\
   fst second = Returned Js.VUndefined /\
   filter (fun e => is_import e = true) (io (snd second)) =
     [EvImport "/app/dist/server/content.js";
      EvImport "/app/dist/server/content.js"]).
Proof.
  split.
  - repeat split; try reflexivity. discriminate.
  - vm_compute. repeat split.
Qed.

(** C3 (amended): in production mode, for a path with a usable name, a call
    that finds the derived key registered starts no outside work, leaves
    the registry, the files and the log as they are, and returns
    [undefined]; the constructor stays in the registry and is not what the
    call returns.  Hence, after a first call that returned and whose bundle
    has a truthy default export, a second call with the same path does no
    bundling and no import. *)
Theorem production_registered_call_is_noop
    (appName cwd : string) (E : env) (path : string) :
  usable_name path = true ->
  (forall w : world,
     Js.truthy (Registry.get (customElements w)
                  (key_of appName (Path.parse_name path))) = true ->
     importElement appName false cwd E path w = (Returned Js.VUndefined, w) /\
     started appName false cwd E path w = []) /\
  (forall (w0 : world) (c : Js.value),
     fst (importElement appName false cwd E path w0) = Returned Js.VUndefined ->
     module_default E (outfile_of cwd path) = Returned c ->
     Js.truthy c = true ->
     let w1 := snd (importElement appName false cwd E path w0) in
     importElement appName false cwd E path w1 = (Returned Js.VUndefined, w1) /\
     started appName false cwd E path w1 = []).
Proof.
  intros Hu. split.
  - intros w Hr. by apply fast_path.
  - intros w0 c H0 Hm Hc w1. apply fast_path; [assumption|].
    subst w1.
    apply (returned_registers appName cwd E path w0 Js.VUndefined c);
      try assumption.
    rewrite <- H0. apply surjective_pairing.
Qed.

Lemma production_registered_call_is_noop_witness :
  (importElement "app" false "/app" env_ok "/app/content.js" world_registered
     = (Returned Js.VUndefined, world_registered) /\
   started "app" false "/app" env_ok "/app/content.js" world_registered = []) /\
  (let w1 := snd (importElement "app" false "/app" env_ok "/app/content.js"
                    (init false)) in
   importElement "app" false "/app" env_ok "/app/content.js" w1
     = (Returned Js.VUndefined, w1) /\
   started "app" false "/app" env_ok "/app/content.js" w1 = []).
Proof.
  destruct (production_registered_call_is_noop "app" "/app" env_ok
              "/app/content.js" eq_refl) as [H1 H2].
  split.
  - apply H1. reflexivity.
  - apply (H2 (init false) class_A); reflexivity.
Defined.

(** C4 at the failing input: production mode, no bundle on disk, the
    bundler rejects after the output was written.  The error is logged and
    the call goes on to import and register the element; nothing reaches
    the caller. *)
Theorem production_bundling_failure_is_swallowed :
  let run := importElement "app" false "/app" env_build_rejects
               "/app/content.js" (init false) in
  fst run = Returned Js.VUndefined /\
  log (snd run) =
    [LogDebug "Bundling /app/content.js to /app/dist/server/content.js";
     LogError build_error] /\
  Registry.get (customElements (snd run)) "app-content" = class_A.
Proof. vm_compute. repeat split. Qed.

(** C9, as the claim words it, fails: in production mode, with no bundle on
    disk, a path whose source cannot be located ends the call before the
    bundling step. *)
Lemma bundler_not_started_when_source_is_missing :
  let started_ := started "app" false "/app" env_source_missing
                    "/app/content.js" (init false) in
  (outfile_of "/app" "/app/content.js" ∉ files (init false)) /\
  existsb is_build started_ = false /\
  ~ (existsb is_build started_ = true <->
     ((outfile_of "/app" "/app/content.js" ∉ files (init false))
      \/ (false = true))).
Proof.
  assert (Habs : outfile_of "/app" "/app/content.js" ∉ files (init false)).
  { cbn. set_solver. }
  assert (Hno : existsb is_build
                  (started "app" false "/app" env_source_missing
                     "/app/content.js" (init false)) = false).
  { rewrite started_eq. reflexivity. }
  cbv zeta. split; [exact Habs|]. split; [exact Hno|].
  intros [_ H]. rewrite Hno in H. specialize (H (or_introl Habs)).
  discriminate.
Qed.

(** C9 (amended): a run of [importElement] starts the bundler exactly when
    it reaches the bundling step (the name is usable, the production fast
    path does not answer, and in production the source was located) and
    the bundle file is absent from disk or the process is in development
    mode.  A run that ends before the bundling step never starts the
    bundler. *)
Theorem bundler_started_iff
    (appName : string) (development : bool) (cwd : string) (E : env)
    (path : string) (w : world) :
  existsb is_build (started appName development cwd E path w) =
  reaches_bundling_step appName development E path w
  && (development || negb (bool_decide (outfile_of cwd path ∈ files w))).
Proof.
  rewrite started_eq. unfold reaches_bundling_step.
  destruct (usable_name path); [|reflexivity].
  destruct (already_defined appName development path w); [reflexivity|].
  destruct (require_resolve E path) as [fp|e];
    destruct development;
    destruct (bool_decide (outfile_of cwd path ∈ files w)); reflexivity.
Qed.

End ImporterFacts.

(** ** The content and fallback routes *)

Module RoutesFacts.
Import Routes Samples.

Section Plugin.
Variables (prefix name : string) (version : option string)
          (locale : string) (development : bool)
          (config_mode : option string) (cwd : string).
Variables (contentFilePath fallbackFilePath : string).
Variables (IE : Importer.env) (RE : env).

Local Abbreviation mode := (mode config_mode).
Local Abbreviation import_ :=
  (import_if_rendered_on_server name development config_mode cwd IE).
Local Abbreviation hydrateSupport :=
  (hydrateSupport prefix development config_mode).
Local Abbreviation content_markup :=
  (content_markup name version locale config_mode).
Local Abbreviation fallback_markup :=
  (fallback_markup name version locale config_mode).
Local Abbreviation answer := (answer prefix development config_mode RE).
Local Abbreviation template_of := (template_of name version locale).

Lemma content_handler_eq (request : string) (w : Importer.world) :
  content_handler prefix name version locale development config_mode cwd
    contentFilePath IE RE request w =
  match import_ contentFilePath w with
  | (Thrown e, w1) =>
      (Returned untouched_reply, Importer.add_log (Importer.LogError e) w1)
  | (Returned _, w1) => answer (content_state RE request) content_markup w1
  end.
Proof.
  unfold content_handler, Routes.answer, render.
  cbv [mbind M_bind bind mret M_ret ret try_catch throw of_outcome
       Importer.write_log modify].
  destruct (import_ contentFilePath w) as [[[]|e] w1]; [|reflexivity].
  destruct (content_state RE request) as [st|e]; [|reflexivity].
  destruct (read_translations RE) as [ms|e]; [|reflexivity].
  destruct (render_error RE _); reflexivity.
Qed.

Lemma fallback_handler_eq (request : string) (w : Importer.world) :
  fallback_handler prefix name version locale development config_mode cwd
    fallbackFilePath IE RE request w =
  match import_ fallbackFilePath w with
  | (Thrown e, w1) =>
      (Returned untouched_reply, Importer.add_log (Importer.LogError e) w1)
  | (Returned _, w1) => answer (fallback_state RE request) fallback_markup w1
  end.
Proof.
  unfold fallback_handler, Routes.answer, render.
  cbv [mbind M_bind bind mret M_ret ret try_catch throw of_outcome
       Importer.write_log modify].
  destruct (import_ fallbackFilePath w) as [[[]|e] w1]; [|reflexivity].
  destruct (fallback_state RE request) as [st|e]; [|reflexivity].
  destruct (read_translations RE) as [ms|e]; [|reflexivity].
  destruct (render_error RE _); reflexivity.
Qed.




(** The fallback route takes the [ssr] markup in every mode but
    [ssr-only], where it takes the [hydrate] markup; its [csr] branch is
    never taken. *)
Lemma fallback_markup_eq (tr st : string) :
  fallback_markup tr st =
  if String.eqb mode "ssr-only"
  then Hydrate "fallback" (template_of "fallback" tr st)
  else Ssr "fallback" (template_of "fallback" tr st).
Proof.
  unfold Routes.fallback_markup.
  destruct (String.eqb_spec mode "ssr-only") as [->|Hne]; reflexivity.
Qed.


End Plugin.


(** C5 at the failing inputs: the fallback route in each of the three
    modes, with collaborators that all answer.  In mode [csr-only] the
    body is the [ssr] markup where the table has the raw element for the
    client; in mode [ssr-only] it is the [hydrate] markup where the table
    has the [ssr] markup; in mode [hydrate] it is the script followed by
    the [ssr] markup where the table has the script followed by the
    [hydrate] markup.  The content route agrees with the table in all
    three modes. *)
Theorem fallback_route_departs_from_table :
  let fallback m :=
    fallback_handler "/" "app" (Some "1.0.0") "en" false (Some m)
      "/app" "/app/fallback.js" env_ok renv_ok "GET /fallback"
      (Importer.init false) in
  let content m :=
    content_handler "/" "app" (Some "1.0.0") "en" false (Some m)
      "/app" "/app/content.js" env_ok renv_ok "GET /"
      (Importer.init false) in
  let table route m st :=
    spec_table "/" "app" (Some "1.0.0") "en" false route m EmptyString st in
  let t := template_of "app" (Some "1.0.0") "en" "fallback" EmptyString
             (Js.dq +:+ Js.dq) in
  let raw := raw_element "app" (Some "1.0.0") "en" "fallback" EmptyString
               (Js.dq +:+ Js.dq) in
  let script :=
    Script
      "/_/dynamic/modules/@lit-labs/ssr-client/lit-element-hydrate-support.js"
      false in
  (body_of (fallback "csr-only") = Some [Ssr "fallback" t] /\
   table "fallback" "csr-only" (Js.dq +:+ Js.dq) = Some [Csr "fallback" raw]) /\
  (body_of (fallback "ssr-only") = Some [Hydrate "fallback" t] /\
   table "fallback" "ssr-only" (Js.dq +:+ Js.dq) = Some [Ssr "fallback" t]) /\
  (body_of (fallback "hydrate") = Some [script; Ssr "fallback" t] /\
   table "fallback" "hydrate" (Js.dq +:+ Js.dq)
     = Some [script; Hydrate "fallback" t]) /\
  body_of (content "csr-only") = table "content" "csr-only" "{}" /\
  body_of (content "ssr-only") = table "content" "ssr-only" "{}" /\
  body_of (content "hydrate") = table "content" "hydrate" "{}".
Proof.
  cbv zeta. repeat split; reflexivity.
Qed.

End RoutesFacts.

(** ** The build context and the client watch handler *)

Module BuildFacts.
Import Build Samples.

Section Dev.
Variable cwd : string.
Variable resolver : gset string -> string -> resolution.
Variable rebuild_result : context -> gset string -> outcome unit.

(** Pushing the four resolutions in turn collects the existing ones. *)
Lemma pushed_existing (d : gset string) :
  pushed resolver d = existing_entries resolver d.
Proof.
  unfold pushed, existing_entries, push_if_exists. cbn [map].
  rewrite !filter_cons, filter_nil.
  destruct (exists_ (resolver d "./content"));
    destruct (exists_ (resolver d "./fallback"));
    destruct (exists_ (resolver d "./scripts"));
    destruct (exists_ (resolver d "./lazy"));
    repeat (case_decide; try congruence); reflexivity.
Qed.

Lemma createBuildContext_eq (w : world) :
  createBuildContext cwd resolver w =
  (Returned {| ctx_id := next_id w;
               entryPoints := existing_entries resolver (disk w) |},
   {| disk := disk w;
      clientFiles :=
        clientFiles w
        ++ map (client_file cwd) (existing_entries resolver (disk w));
      CONTENT_FILEPATH := Some (resolver (disk w) "./content");
      FALLBACK_FILEPATH := Some (resolver (disk w) "./fallback");
      buildContext := buildContext w;
      next_id := S (next_id w);
      io := io w ++ creation_calls resolver (next_id w) (disk w);
      debug_log := debug_log w |}).
Proof.
  destruct w as [d files content fallback current next calls logged].
  unfold creation_calls. rewrite <- !pushed_existing.
  unfold createBuildContext, resolve, pushed.
  cbv [mbind M_bind bind mret M_ret ret get_state modify emit set_content
       set_fallback push_clientFiles fresh_id
       disk clientFiles CONTENT_FILEPATH FALLBACK_FILEPATH buildContext
       next_id io debug_log].
  rewrite <- !app_assoc. reflexivity.
Qed.

(** C2: [createBuildContext()] asks the resolver for [./content],
    [./fallback], [./scripts] and [./lazy], in this order, and opens the
    context on exactly the paths of those that exist, in that order; in
    particular, when content and scripts exist and fallback and lazy do
    not, the entry points are the two existing paths. *)
Theorem createBuildContext_entry_points (w : world) :
  let run := createBuildContext cwd resolver w in
  let calls := drop (length (io w)) (io (snd run)) in
  exists ctx : context,
    fst run = Returned ctx /\
    entryPoints ctx = existing_entries resolver (disk w) /\
    calls =
      [EvResolve "./content"; EvResolve "./fallback";
       EvResolve "./scripts"; EvResolve "./lazy";
       EvContext (ctx_id ctx) (entryPoints ctx);
       EvServe (ctx_id ctx) 6935%Z] /\
    (forall p : string,
       In p (entryPoints ctx) <->
       exists logical : string,
         In logical ["./content"; "./fallback"; "./scripts"; "./lazy"] /\
         exists_ (resolver (disk w) logical) = true /\
         path (resolver (disk w) logical) = p) /\
    (exists_ (resolver (disk w) "./content") = true ->
     exists_ (resolver (disk w) "./scripts") = true ->
     exists_ (resolver (disk w) "./fallback") = false ->
     exists_ (resolver (disk w) "./lazy") = false ->
     entryPoints ctx =
       [path (resolver (disk w) "./content");
        path (resolver (disk w) "./scripts")]).
Proof.
  cbv zeta. rewrite createBuildContext_eq. cbn [fst snd io].
  eexists. split; [reflexivity|]. cbn [entryPoints ctx_id].
  split; [reflexivity|]. split; [by rewrite drop_app_length|]. split.
  - intros p. unfold existing_entries. rewrite in_map_iff. split.
    + intros (r & <- & Hr). apply list_elem_of_In in Hr.
      apply list_elem_of_filter in Hr as [Hex Hr].
      apply list_elem_of_In, in_map_iff in Hr as (l & <- & Hl). eauto.
    + intros (l & Hl & Hex & <-). eexists. split; [reflexivity|].
      apply list_elem_of_In, list_elem_of_filter. split; [exact Hex|].
      apply list_elem_of_In, in_map. exact Hl.
  - intros Hc Hs Hf Hl. unfold existing_entries. cbn [map].
    rewrite !filter_cons, filter_nil, Hc, Hs, Hf, Hl.
    repeat (case_decide; try congruence). reflexivity.
Qed.

(** One run of the handler of a client file event makes one [rebuild()]
    call, on the current build context, and returns.  When the rebuild
    succeeds nothing else is called and the context stays.  When it fails,
    the failed context is disposed once, then [createBuildContext()] runs
    once: the four entry points are resolved anew against the files that
    are on disk at that moment, a new context is opened on those that
    exist, and it becomes the current one. *)
Theorem clientFileChange_rebuilds_once (type filename : string) (w : world) :
  let run := clientFileChange cwd resolver rebuild_result type filename w in
  let calls := drop (length (io w)) (io (snd run)) in
  let old := buildContext w in
  fst run = Returned tt /\
  count is_rebuild calls = 1 /\
  In (EvRebuild (ctx_id old)) calls /\
  (forall u : unit,
     rebuild_result old (disk w) = Returned u ->
     calls = [EvRebuild (ctx_id old)] /\
     buildContext (snd run) = old) /\
  (forall e : Js.error,
     rebuild_result old (disk w) = Thrown e ->
     calls =
       EvRebuild (ctx_id old) :: EvDispose (ctx_id old)
       :: creation_calls resolver (next_id w) (disk w) /\
     count is_dispose calls = 1 /\
     count is_context calls = 1 /\
     buildContext (snd run) =
       {| ctx_id := next_id w;
          entryPoints := existing_entries resolver (disk w) |}).
Proof.
  destruct w as [d files content fallback old next calls logged].
  cbv zeta.
  unfold clientFileChange, rebuild, dispose.
  cbv [mbind M_bind bind mret M_ret ret get_state modify emit debug
       try_catch of_outcome set_buildContext
       disk clientFiles CONTENT_FILEPATH FALLBACK_FILEPATH buildContext
       next_id io debug_log].
  destruct (rebuild_result old d) as [[]|e] eqn:Hr.
  - cbn. rewrite drop_app_length.
    split; [reflexivity|]. split; [reflexivity|].
    split; [left; reflexivity|]. split.
    + intros u _. split; reflexivity.
    + intros e [=].
  - rewrite createBuildContext_eq. cbn.
    rewrite <- !app_assoc, drop_app_length.
    split; [reflexivity|]. split; [reflexivity|].
    split; [left; reflexivity|]. split.
    + intros u [=].
    + intros e' _. repeat split; reflexivity.
Qed.

End Dev.

Lemma createBuildContext_entry_points_witness :
  exists_ (js_or_ts "/app" disk_two "./content") = true /\
  exists_ (js_or_ts "/app" disk_two "./scripts") = true /\
  exists_ (js_or_ts "/app" disk_two "./fallback") = false /\
  exists_ (js_or_ts "/app" disk_two "./lazy") = false /\
  exists ctx : context,
    fst (createBuildContext "/app" (js_or_ts "/app") (boot disk_two))
      = Returned ctx /\
    entryPoints ctx = ["/app/content.js"; "/app/scripts.js"].
Proof.
  repeat (split; [reflexivity|]).
  destruct (createBuildContext_entry_points "/app" (js_or_ts "/app")
              (boot disk_two)) as (ctx & Hrun & _ & _ & _ & Hscenario).
  exists ctx. split; [exact Hrun|].
  apply Hscenario; reflexivity.
Defined.

Lemma clientFileChange_rebuilds_once_witness :
  let w := with_disk disk_three (started_up disk_two) in
  let run := clientFileChange "/app" (js_or_ts "/app")
               (stale_when_changed disk_two) "added" "fallback.ts" w in
  entryPoints (buildContext w) = ["/app/content.js"; "/app/scripts.js"] /\
  buildContext (snd run) =
    {| ctx_id := 1;
       entryPoints :=
         ["/app/content.js"; "/app/fallback.ts"; "/app/scripts.js"] |}.
Proof.
  cbv zeta. split; [reflexivity|].
  destruct (clientFileChange_rebuilds_once "/app" (js_or_ts "/app")
              (stale_when_changed disk_two) "added" "fallback.ts"
              (with_disk disk_three (started_up disk_two)))
    as (_ & _ & _ & _ & Hfail).
  destruct (Hfail (Js.Error "Could not resolve") eq_refl) as (_ & _ & _ & ->).
  reflexivity.
Defined.

End BuildFacts.

(** ** The development server *)

Module DevServerFacts.
Import DevServer Samples.

Section Server.
Variable port : Z.
Variable setup_result : nat -> outcome unit.
Variable reload_result : outcome unit.
Variable close_ends_first : bool.

Local Abbreviation restart := (restart port setup_result close_ends_first).

(** [restart()] on a server that has an instance and no close under way,
    when the setup of the new one succeeds. *)
Lemma restart_eq (a : nat) (current : option nat) (waiting : list nat)
    (n : nat) (history : list event) (logged : list log_entry) :
  setup_result n = Returned tt ->
  restart {| app := Some a; listening := current; pending := waiting;
             closing := []; next_app := n; trace := history;
             log := logged |} =
  (Returned tt,
   {| app := Some n;
      listening := if bool_decide (current = Some a) then None else current;
      pending := waiting ++ [n];
      closing := [];
      next_app := S n;
      trace := history
               ++ [SetupBegin n; CloseBegin a]
               ++ (if close_ends_first then [CloseEnd a; SetupEnd n]
                   else [SetupEnd n; CloseEnd a])
               ++ [ListenBegin n port];
      log := logged |}).
Proof.
  intros Hs.
  unfold DevServer.restart, setup_and_close, setup_begin, setup_end,
    close_begin, close_end, listen_begin.
  cbv [mbind M_bind bind mret M_ret ret get_state modify emit set_app
       set_listening set_pending set_closing fresh_app try_catch of_outcome
       throw app listening pending closing next_app trace log].
  rewrite Hs.
  destruct close_ends_first; cbv beta iota;
    destruct (bool_decide (current = Some a)); cbv beta iota;
    cbn [Datatypes.app remove_one]; rewrite Nat.eqb_refl, <- ?app_assoc;
    reflexivity.
Qed.

(** The first half of C8: under [Promise.all] the setup and the close both
    begin before either ends, and the listen call comes after both ends. *)
Lemma restart_order (a n : nat) :
  a <> n ->
  let calls := [SetupBegin n; CloseBegin a]
               ++ (if close_ends_first then [CloseEnd a; SetupEnd n]
                   else [SetupEnd n; CloseEnd a])
               ++ [ListenBegin n port] in
  before (SetupBegin n) (CloseEnd a) calls /\
  before (CloseBegin a) (SetupEnd n) calls /\
  before (SetupEnd n) (ListenBegin n port) calls /\
  before (CloseEnd a) (ListenBegin n port) calls.
Proof.
  intros Hne. cbv zeta. unfold before.
  destruct close_ends_first; cbn;
    rewrite ?Nat.eqb_refl, ?Z.eqb_refl; cbn;
    repeat split; lia.
Qed.

(** After [restart()] has returned, the listen call of the new instance is
    still under way and nothing holds the port that the old instance
    held. *)
Lemma restart_leaves_listen_pending (a : nat) (waiting : list nat)
    (n : nat) (history : list event) (logged : list log_entry) :
  setup_result n = Returned tt ->
  let s := {| app := Some a; listening := Some a; pending := waiting;
              closing := []; next_app := n; trace := history;
              log := logged |} in
  fst (restart s) = Returned tt /\
  reachable (snd (restart s)) = false /\
  pending (snd (restart s)) = waiting ++ [n].
Proof.
  intros Hs. cbv zeta. rewrite restart_eq by exact Hs. cbn [fst snd].
  rewrite bool_decide_eq_true_2 by reflexivity. repeat split.
Qed.

End Server.

(** C8 at the failing input: the server was started on port 3000 and a
    server file changes; reload and setup succeed.  Whichever of setup and
    close ends first, the listen call is made after both have ended, and
    the handler returns and logs that the server was restarted while that
    call has begun and not ended: nothing holds the port at that moment.
    The server answers again only once the event loop has brought the call
    to its end.  [start()], which awaits the listen call, returns with the
    port held. *)
Theorem restart_returns_before_listening :
  reachable first_started = true /\
  forall close_ends_first : bool,
    let run := serverFileChange 3000 setup_ok (Returned tt) close_ends_first
                 "changed" "server.js" first_started in
    fst run = Returned tt /\
    app (snd run) = Some 1 /\
    pending (snd run) = [1] /\
    reachable (snd run) = false /\
    last (log (snd run)) = Some (LogDebug "server restarted") /\
    reachable (settle 3000 (snd run)) = true /\
    before (SetupEnd 1) (ListenBegin 1 3000) (trace (snd run)) /\
    before (CloseEnd 0) (ListenBegin 1 3000) (trace (snd run)).
Proof.
  split; [reflexivity|].
  intros []; cbv zeta; repeat split; try reflexivity; vm_compute; lia.
Qed.

End DevServerFacts.

(** ** More on the custom element registry *)

Module RegistryMore.
Import Registry RegistrySeries Samples.

Lemma define_other (r : t) (name other : string) (ctor : Js.value) :
  other <> name ->
  definitions (snd (define name ctor r)) !! other = definitions r !! other.
Proof.
  intros Hne.
  destruct (RegistryFacts.define_cases name ctor r)
    as [[E _]|[[E _]|[E _]]]; rewrite E; cbn [snd]; try reflexivity.
  unfold set. cbn. by rewrite lookup_insert_ne.
Qed.

Lemma define_production_keeps
    (r : t) (name n : string) (ctor : Js.value) (d : definition) :
  development r = false ->
  definitions r !! n = Some d ->
  definitions (snd (define name ctor r)) !! n = Some d.
Proof.
  intros Hmode Hd.
  destruct (RegistryFacts.define_cases name ctor r)
    as [[E _]|[[E _]|[E (_ & _ & [Hdev|Hfree])]]]; rewrite E; cbn [snd];
    try exact Hd.
  - congruence.
  - unfold set. cbn. rewrite lookup_insert_ne; [exact Hd|].
    intros ->. unfold has in Hfree. rewrite Hd in Hfree. discriminate.
Qed.

Lemma define_keeps_defined (r : t) (name n : string) (ctor : Js.value) :
  has r n = true -> has (snd (define name ctor r)) n = true.
Proof.
  intros Hn.
  destruct (RegistryFacts.define_cases name ctor r)
    as [[E _]|[[E _]|[E _]]]; rewrite E; cbn [snd]; try exact Hn.
  unfold has, set. cbn.
  destruct (decide (name = n)) as [->|Hne].
  - by rewrite lookup_insert_eq.
  - rewrite lookup_insert_ne by exact Hne. exact Hn.
Qed.

(** X1: a [define] with a non-empty name and a truthy constructor, in
    development mode or under a name not yet used, returns, and [get]
    then yields that constructor; the entry holds the observed attributes
    of the constructor, or none when it declares none. *)
Theorem define_then_get (r : t) (name : string) (ctor : Js.value) :
  Js.str_truthy name = true ->
  Js.truthy ctor = true ->
  development r = true \/ has r name = false ->
  fst (define name ctor r) = Returned tt /\
  get (snd (define name ctor r)) name = ctor /\
  definitions (snd (define name ctor r)) !! name =
    Some {| ctor := ctor;
            observedAttributes := Js.observedAttributes_or_empty ctor |}.
Proof.
  intros Hn Hc Hfree.
  destruct (RegistryFacts.define_cases name ctor r)
    as [[_ [H|H]]|[(_ & _ & _ & Hd & Hh)|[E _]]].
  - congruence.
  - congruence.
  - destruct Hfree; congruence.
  - rewrite E. cbn [fst snd]. split; [reflexivity|].
    rewrite RegistryFacts.get_set. split; [reflexivity|].
    unfold set. cbn. by rewrite lookup_insert_eq.
Qed.

Lemma define_then_get_witness :
  get (snd (define "app-content" class_A (create false))) "app-content"
    = class_A /\
  definitions (snd (define "app-content" class_A (create false)))
    !! "app-content"
    = Some {| ctor := class_A; observedAttributes := ["open"] |}.
Proof.
  destruct (define_then_get (create false) "app-content" class_A
              eq_refl eq_refl (or_intror eq_refl)) as (_ & Hget & Hentry).
  split; [exact Hget | exact Hentry].
Defined.

(** X2: [define] touches no other name: whatever the call does, the
    entries under every other name are as before. *)
Theorem define_leaves_other_names
    (r : t) (name other : string) (ctor : Js.value) :
  other <> name ->
  definitions (snd (define name ctor r)) !! other = definitions r !! other /\
  get (snd (define name ctor r)) other = get r other.
Proof.
  intros Hne.
  pose proof (define_other r name other ctor Hne) as H.
  split; [exact H|]. unfold get. by rewrite H.
Qed.

Lemma define_leaves_other_names_witness :
  get (snd (define "app-fallback" (Js.VClass 2 None)
              (registered_content true))) "app-content"
  = get (registered_content true) "app-content".
Proof.
  apply (define_leaves_other_names (registered_content true)
           "app-fallback" "app-content" (Js.VClass 2 None)).
  discriminate.
Defined.

(** X3: in a registry built by [define] calls, [get] yields a truthy
    value exactly for the names that are defined; for every other name
    it yields [undefined]. *)
Theorem get_truthy_iff_defined (r : t) (name : string) :
  reachable r ->
  Js.truthy (get r name) = has r name /\
  (has r name = false -> get r name = Js.VUndefined).
Proof.
  intros Hr. unfold get, has.
  destruct (definitions r !! name) as [d|] eqn:Hd.
  - split; [|discriminate].
    apply (RegistryFacts.reachable_entries r Hr name d Hd).
  - split; reflexivity.
Qed.

Lemma get_truthy_iff_defined_witness :
  Js.truthy (get (registered_content false) "app-content") = true /\
  get (registered_content false) "app-fallback" = Js.VUndefined.
Proof.
  split.
  - destruct (get_truthy_iff_defined (registered_content false) "app-content"
                (RegistryFacts.registered_content_reachable false))
      as [H _].
    rewrite H. reflexivity.
  - destruct (get_truthy_iff_defined (registered_content false) "app-fallback"
                (RegistryFacts.registered_content_reachable false))
      as [_ H].
    apply H. reflexivity.
Defined.

Lemma define_all_keeps_mode (calls : list (string * Js.value)) (r : t) :
  development (define_all calls r) = development r.
Proof.
  revert r. induction calls as [|[n c] calls IH]; intros r; [reflexivity|].
  cbn [define_all]. rewrite IH. apply RegistryFacts.define_keeps_mode.
Qed.

(** X4: in production mode an entry, once made, is never changed: after
    any series of further [define] calls the name still holds the same
    constructor and observed attributes. *)
Theorem production_entry_is_never_replaced
    (r : t) (name : string) (d : definition)
    (calls : list (string * Js.value)) :
  development r = false ->
  definitions r !! name = Some d ->
  definitions (define_all calls r) !! name = Some d.
Proof.
  revert r. induction calls as [|[n c] calls IH]; intros r Hmode Hd;
    [exact Hd|].
  cbn [define_all]. apply IH.
  - by rewrite RegistryFacts.define_keeps_mode.
  - by apply define_production_keeps.
Qed.

Lemma production_entry_is_never_replaced_witness :
  definitions
    (define_all [("app-content", Js.VClass 2 None);
                 ("app-fallback", Js.VClass 3 None);
                 ("app-content", Js.VUndefined)]
       (registered_content false)) !! "app-content"
  = Some {| ctor := class_A; observedAttributes := ["open"] |}.
Proof.
  apply (production_entry_is_never_replaced (registered_content false)
           "app-content" {| ctor := class_A; observedAttributes := ["open"] |});
    reflexivity.
Defined.

End RegistryMore.

(** ** The shape of joined URL paths *)

Module PathMore.
Import Path PathShape.

Lemma is_slash_eq (c : ascii) : is_slash c = true -> c = "/"%char.
Proof. unfold is_slash. apply Ascii.eqb_eq. Qed.

Lemma collapse_two (c a : ascii) (s : string) :
  collapse_slashes (String c (String a s)) =
  if is_slash c then
    if is_slash a then collapse_slashes (String a s)
    else String c (collapse_slashes (String a s))
  else String c (collapse_slashes (String a s)).
Proof. reflexivity. Qed.

Lemma no_double_two (c a : ascii) (s : string) :
  no_double_slash (String c (String a s)) =
  negb (is_slash c && is_slash a) && no_double_slash (String a s).
Proof. reflexivity. Qed.

(** Collapsing keeps the first character. *)
Lemma collapse_head (s : string) (c : ascii) :
  exists t : string, collapse_slashes (String c s) = String c t.
Proof.
  revert c. induction s as [|a s IH]; intros c.
  - exists EmptyString. cbn. by destruct (is_slash c).
  - rewrite collapse_two.
    destruct (is_slash c) eqn:Hc; [|eexists; reflexivity].
    destruct (is_slash a) eqn:Ha; [|eexists; reflexivity].
    destruct (IH a) as [t Ht]. exists t.
    rewrite Ht, (is_slash_eq c Hc), (is_slash_eq a Ha). reflexivity.
Qed.

Lemma collapse_no_double_slash (s : string) :
  no_double_slash (collapse_slashes s) = true.
Proof.
  induction s as [|c s IH]; [reflexivity|].
  destruct s as [|a s].
  - cbn. by destruct (is_slash c).
  - rewrite collapse_two.
    destruct (collapse_head s a) as [t Ht].
    destruct (is_slash c) eqn:Hc; [destruct (is_slash a) eqn:Ha|].
    + exact IH.
    + rewrite Ht in *. by rewrite no_double_two, Hc, Ha, IH.
    + rewrite Ht in *. by rewrite no_double_two, Hc, IH.
Qed.

Lemma collapse_fixes_clean (s : string) :
  no_double_slash s = true -> collapse_slashes s = s.
Proof.
  induction s as [|c s IH]; [reflexivity|].
  destruct s as [|a s]; intros H.
  - cbn. by destruct (is_slash c).
  - rewrite no_double_two in H. apply andb_prop in H as [Hca Hs].
    rewrite collapse_two, (IH Hs).
    destruct (is_slash c); [|reflexivity].
    destruct (is_slash a); [discriminate|reflexivity].
Qed.

(** X5: a joined URL path never has two slashes in a row, and joining is
    stable: collapsing the result again changes nothing. *)
Theorem joined_path_has_no_double_slash (a b : string) :
  no_double_slash (joinURLPathSegments a b) = true /\
  collapse_slashes (joinURLPathSegments a b) = joinURLPathSegments a b.
Proof.
  assert (H : no_double_slash (joinURLPathSegments a b) = true)
    by apply collapse_no_double_slash.
  split; [exact H|]. by apply collapse_fixes_clean.
Qed.

Lemma collapse_is_slash_iff (s : string) :
  collapse_slashes s = "/" <-> s <> EmptyString /\ all_slashes s = true.
Proof.
  induction s as [|c s IH].
  - split; [discriminate|]. intros [H _]. by destruct H.
  - destruct s as [|a s].
    + cbn. destruct (is_slash c) eqn:Hc.
      * rewrite (is_slash_eq c Hc). split; [by split|reflexivity].
      * split.
        -- intros [= ->]. discriminate.
        -- intros [_ H]. discriminate.
    + rewrite collapse_two. cbn [all_slashes].
      destruct (collapse_head s a) as [t Ht].
      destruct (is_slash c) eqn:Hc.
      * destruct (is_slash a) eqn:Ha.
        -- rewrite IH. cbn [all_slashes]. rewrite Ha. cbn.
           split; intros [_ H]; (split; [discriminate|exact H]).
        -- rewrite Ht. cbn. split; [discriminate|]. intros [_ H].
           discriminate.
      * rewrite Ht. cbn. split; [|intros [_ H]; discriminate].
        intros [=].
Qed.

Lemma all_slashes_app (a b : string) :
  all_slashes (a +:+ b) = all_slashes a && all_slashes b.
Proof.
  induction a as [|c a IH]; [reflexivity|].
  simpl. rewrite IH. by rewrite andb_assoc.
Qed.

Lemma join_root_iff (a b : string) :
  joinURLPathSegments a b = "/" <->
  all_slashes a = true /\ all_slashes b = true.
Proof.
  unfold joinURLPathSegments. rewrite collapse_is_slash_iff.
  rewrite all_slashes_app. simpl.
  rewrite andb_true_iff. split.
  - intros [_ H]. exact H.
  - intros H. split; [|exact H]. by destruct a.
Qed.

(** X6: the join of two segments is the root path [/] exactly when both
    segments consist of slashes only (the empty segment included). *)
Theorem joined_path_is_root_iff (a b : string) :
  joinURLPathSegments a b = "/" <->
  all_slashes a = true /\ all_slashes b = true.
Proof. apply join_root_iff. Qed.

End PathMore.

(** ** More on the element importer *)

Module ImporterMore.
Import Importer Samples.

Section Plugin.
Variables (appName : string) (cwd : string) (E : env).

(** *** What each step leaves of the files and of the registry *)

Lemma files_after_build (f o : string) (w : world) :
  files (after_build E f o w) = files w \/
  files (after_build E f o w) = {[ o ]} ∪ files w.
Proof.
  unfold after_build.
  destruct (esbuild_build E f o) as [|e []]; cbn; auto.
Qed.

Lemma registry_after_build (f o : string) (w : world) :
  customElements (after_build E f o w) = customElements w.
Proof.
  unfold after_build.
  destruct (esbuild_build E f o) as [|e []]; reflexivity.
Qed.

Lemma log_after_build (f o : string) (w : world) :
  exists more : list log_entry, log (after_build E f o w) = log w ++ more.
Proof.
  unfold after_build.
  destruct (esbuild_build E f o) as [|e []]; cbn;
    eauto using app_nil_r, eq_sym.
Qed.

Lemma bundle_step_world
    (development : bool) (f o : string) (w : world) :
  let w' := snd (bundle_step development E f o w) in
  customElements w' = customElements w /\
  (files w' = files w \/ files w' = {[ o ]} ∪ files w) /\
  exists more : list log_entry, log w' = log w ++ more.
Proof.
  cbv zeta. rewrite ImporterFacts.bundle_step_eq. cbn [snd].
  destruct (development || negb (bool_decide (o ∈ files w))).
  - rewrite registry_after_build. split; [reflexivity|]. split.
    + destruct (files_after_build f o
                  (add_io (EvBuild f o)
                     (add_log (LogDebug ("Bundling " +:+ f +:+ " to " +:+ o))
                        (add_io (EvStat o) w)))) as [H|H]; rewrite H; auto.
    + destruct (log_after_build f o
                  (add_io (EvBuild f o)
                     (add_log (LogDebug ("Bundling " +:+ f +:+ " to " +:+ o))
                        (add_io (EvStat o) w)))) as [more H].
      rewrite H. cbn. rewrite <- app_assoc. eauto.
  - cbn. split; [reflexivity|]. split; [auto|]. exists []. by rewrite app_nil_r.
Qed.

(** *** What the code of a bundle can do to the registry *)

Lemma evaluate_define (name : string) (ctor : Js.value) (next : script)
    (r : Registry.t) :
  evaluate (Define name ctor next) r =
  match Registry.define name ctor r with
  | (Returned _, r') => evaluate next r'
  | (Thrown e, r') => (Thrown e, r')
  end.
Proof. reflexivity. Qed.

Lemma evaluate_try_define (name : string) (ctor : Js.value)
    (next : script) (caught : Js.error -> script) (r : Registry.t) :
  evaluate (TryDefine name ctor next caught) r =
  match Registry.define name ctor r with
  | (Returned _, r') => evaluate next r'
  | (Thrown e, r') => evaluate (caught e) r'
  end.
Proof. reflexivity. Qed.

Lemma evaluate_keeps_mode (s : script) (r : Registry.t) :
  Registry.development (snd (evaluate s r)) = Registry.development r.
Proof.
  revert r.
  induction s as [|name ctor next IH|name ctor next IH caught IHc
                  |name next IH]; intros r.
  - reflexivity.
  - rewrite evaluate_define.
    pose proof (RegistryFacts.define_keeps_mode name ctor r) as Hm.
    destruct (Registry.define name ctor r) as [[[]|e] r']; cbn [snd] in *.
    + by rewrite IH.
    + exact Hm.
  - rewrite evaluate_try_define.
    pose proof (RegistryFacts.define_keeps_mode name ctor r) as Hm.
    destruct (Registry.define name ctor r) as [[[]|e] r']; cbn [snd] in *.
    + by rewrite IH.
    + by rewrite IHc.
  - apply (IH (Registry.get r name) r).
Qed.

Lemma evaluate_keeps_defined (s : script) (r : Registry.t) (n : string) :
  Registry.has r n = true -> Registry.has (snd (evaluate s r)) n = true.
Proof.
  revert r.
  induction s as [|name ctor next IH|name ctor next IH caught IHc
                  |name next IH]; intros r Hn.
  - exact Hn.
  - rewrite evaluate_define.
    pose proof (RegistryMore.define_keeps_defined r name n ctor Hn) as Hk.
    destruct (Registry.define name ctor r) as [[[]|e] r']; cbn [snd] in *.
    + by apply IH.
    + exact Hk.
  - rewrite evaluate_try_define.
    pose proof (RegistryMore.define_keeps_defined r name n ctor Hn) as Hk.
    destruct (Registry.define name ctor r) as [[[]|e] r']; cbn [snd] in *.
    + by apply IH.
    + by apply IHc.
  - by apply (IH (Registry.get r name) r).
Qed.

Lemma evaluate_production_keeps (s : script) (r : Registry.t) (n : string)
    (d : Registry.definition) :
  Registry.development r = false ->
  Registry.definitions r !! n = Some d ->
  Registry.definitions (snd (evaluate s r)) !! n = Some d.
Proof.
  revert r.
  induction s as [|name ctor next IH|name ctor next IH caught IHc
                  |name next IH]; intros r Hmode Hd.
  - exact Hd.
  - rewrite evaluate_define.
    pose proof (RegistryMore.define_production_keeps r name n ctor d Hmode Hd)
      as Hk.
    pose proof (RegistryFacts.define_keeps_mode name ctor r) as Hm.
    destruct (Registry.define name ctor r) as [[[]|e] r']; cbn [snd] in *.
    + apply IH; [congruence|exact Hk].
    + exact Hk.
  - rewrite evaluate_try_define.
    pose proof (RegistryMore.define_production_keeps r name n ctor d Hmode Hd)
      as Hk.
    pose proof (RegistryFacts.define_keeps_mode name ctor r) as Hm.
    destruct (Registry.define name ctor r) as [[[]|e] r']; cbn [snd] in *.
    + apply IH; [congruence|exact Hk].
    + apply IHc; [congruence|exact Hk].
  - by apply (IH (Registry.get r name) r).
Qed.

(** In development mode no [define] fails, so the code of a bundle runs
    to its end. *)
Lemma evaluate_development_returns (s : script) (r : Registry.t) :
  Registry.development r = true -> fst (evaluate s r) = Returned tt.
Proof.
  revert r.
  induction s as [|name ctor next IH|name ctor next IH caught IHc
                  |name next IH]; intros r Hmode.
  - reflexivity.
  - rewrite evaluate_define.
    pose proof (RegistryFacts.define_keeps_mode name ctor r) as Hm.
    destruct (RegistryFacts.define_cases name ctor r)
      as [[Hd _]|[[Hd (_ & _ & Hp & _)]|[Hd _]]]; rewrite Hd in *;
      cbn [snd] in *.
    + by apply IH.
    + congruence.
    + apply IH. congruence.
  - rewrite evaluate_try_define.
    pose proof (RegistryFacts.define_keeps_mode name ctor r) as Hm.
    destruct (RegistryFacts.define_cases name ctor r)
      as [[Hd _]|[[Hd (_ & _ & Hp & _)]|[Hd _]]]; rewrite Hd in *;
      cbn [snd] in *.
    + by apply IH.
    + congruence.
    + apply IH. congruence.
  - by apply (IH (Registry.get r name) r).
Qed.

Lemma registry_after_import_mode (outfile : string) (w : world) :
  Registry.development (registry_after_import E outfile w) =
  Registry.development (customElements w).
Proof.
  unfold registry_after_import.
  destruct (bool_decide (outfile ∈ files w)); [|reflexivity].
  apply evaluate_keeps_mode.
Qed.

Lemma registry_after_import_cases (outfile : string) (w w2 : world) :
  customElements w2 = customElements w ->
  left_by_import E outfile w (registry_after_import E outfile w2).
Proof.
  intros Hreg. unfold registry_after_import, left_by_import. rewrite Hreg.
  destruct (bool_decide (outfile ∈ files w2)); auto.
Qed.

(** The world after a whole run: the registry is what one [define] call
    on the key makes of the registry the import left, the files are as
    before or have the bundle in addition, the log has only grown. *)
Lemma importElement_world
    (development : bool) (path : string) (w : world) :
  let w' := snd (importElement appName development cwd E path w) in
  (exists (r1 : Registry.t) (v : Js.value),
     left_by_import E (outfile_of cwd path) w r1 /\
     customElements w' =
       snd (Registry.define (key_of appName (Path.parse_name path)) v r1)) /\
  (files w' = files w \/ files w' = {[ outfile_of cwd path ]} ∪ files w) /\
  exists more : list log_entry, log w' = log w ++ more.
Proof.
  cbv zeta.
  assert (Hsame : forall (w0 : world) (r1 : Registry.t),
            left_by_import E (outfile_of cwd path) w r1 ->
            customElements w0 = r1 ->
            exists (r1 : Registry.t) (v : Js.value),
              left_by_import E (outfile_of cwd path) w r1 /\
              customElements w0 =
                snd (Registry.define (key_of appName (Path.parse_name path)) v
                       r1)).
  { intros w0 r1 Hr1 Heq. subst r1.
    exists (customElements w0), Js.VUndefined.
    split; [exact Hr1|].
    unfold Registry.define. cbn [Js.truthy negb]. by rewrite orb_true_r. }
  assert (Hw : left_by_import E (outfile_of cwd path) w (customElements w))
    by (by left).
  rewrite ImporterFacts.importElement_eq.
  destruct (negb (usable_name path)).
  { cbn [snd]. split; [by apply (Hsame w _ Hw)|]. split; [auto|].
    exists []. by rewrite app_nil_r. }
  destruct (already_defined appName development path w).
  { cbn [snd]. split; [by apply (Hsame w _ Hw)|]. split; [auto|].
    exists []. by rewrite app_nil_r. }
  rewrite ImporterFacts.resolve_step_eq.
  assert (Hrest : forall (fp : string) (w1 : world),
    customElements w1 = customElements w ->
    files w1 = files w ->
    (exists more, log w1 = log w ++ more) ->
    let w' :=
      snd (match import_step development E (outfile_of cwd path)
                   (snd (bundle_step development E fp
                           (outfile_of cwd path) w1)) with
           | (Thrown e, w3) => (Thrown e, w3)
           | (Returned v, w3) =>
               match define_step development
                       (key_of appName (Path.parse_name path)) v w3 with
               | (Thrown e, w4) => (Thrown e, w4)
               | (Returned _, w4) => (Returned Js.VUndefined, w4)
               end
           end) in
    (exists (r1 : Registry.t) (v : Js.value),
       left_by_import E (outfile_of cwd path) w r1 /\
       customElements w' =
         snd (Registry.define (key_of appName (Path.parse_name path)) v r1)) /\
    (files w' = files w \/ files w' = {[ outfile_of cwd path ]} ∪ files w) /\
    exists more : list log_entry, log w' = log w ++ more).
  { intros fp w1 Hreg Hfiles [more1 Hlog]. cbv zeta.
    destruct (bundle_step_world development fp (outfile_of cwd path) w1)
      as (Hreg2 & Hfiles2 & more2 & Hlog2).
    set (w2 := snd (bundle_step development E fp (outfile_of cwd path) w1)) in *.
    rewrite Hreg in Hreg2. rewrite Hfiles in Hfiles2. rewrite Hlog in Hlog2.
    clearbody w2.
    pose proof (registry_after_import_cases (outfile_of cwd path) w w2 Hreg2)
      as Hleft.
    set (r2 := registry_after_import E (outfile_of cwd path) w2) in *.
    rewrite ImporterFacts.import_step_eq. fold r2.
    assert (Hdefine : forall (v : Js.value) (w3 : world),
      customElements w3 = r2 ->
      files w3 = files w2 ->
      (exists more, log w3 = log w ++ more) ->
      let w' :=
        snd (match define_step development
                     (key_of appName (Path.parse_name path)) v w3 with
             | (Thrown e, w4) => (Thrown e, w4)
             | (Returned _, w4) => (Returned Js.VUndefined, w4)
             end) in
      (exists (r1 : Registry.t) (v : Js.value),
         left_by_import E (outfile_of cwd path) w r1 /\
         customElements w' =
           snd (Registry.define (key_of appName (Path.parse_name path)) v
                  r1)) /\
      (files w' = files w \/ files w' = {[ outfile_of cwd path ]} ∪ files w) /\
      exists more : list log_entry, log w' = log w ++ more).
    { intros v w3 Hreg3 Hfiles3 [more3 Hlog3]. cbv zeta.
      rewrite ImporterFacts.define_step_eq, Hreg3.
      destruct (Registry.define (key_of appName (Path.parse_name path)) v r2)
        as [[[]|e] r] eqn:Hd.
      - cbn. split; [exists r2, v; by rewrite Hd|]. rewrite Hfiles3.
        split; [exact Hfiles2|]. eauto.
      - assert (Hthrown :
          forall o : outcome Js.value,
            let w' := add_log (LogError e) (with_registry r w3) in
            (exists (r1 : Registry.t) (v : Js.value),
               left_by_import E (outfile_of cwd path) w r1 /\
               customElements w' =
                 snd (Registry.define (key_of appName (Path.parse_name path))
                        v r1)) /\
            (files w' = files w \/
             files w' = {[ outfile_of cwd path ]} ∪ files w) /\
            exists more : list log_entry, log w' = log w ++ more).
        { intros _. cbn. split; [exists r2, v; by rewrite Hd|].
          rewrite Hfiles3.
          split; [exact Hfiles2|]. rewrite Hlog3, <- !app_assoc.
          eexists; reflexivity. }
        destruct development; cbn [snd];
          exact (Hthrown (Returned Js.VUndefined)). }
    destruct (import_result E (outfile_of cwd path) w2) as [v|e].
    - apply Hdefine; cbn; [reflexivity|reflexivity|].
      rewrite Hlog2, <- !app_assoc. eexists; reflexivity.
    - destruct development; cbv beta iota.
      + apply Hdefine; cbn; [reflexivity|reflexivity|].
        rewrite Hlog2, <- !app_assoc. eexists; reflexivity.
      + split; [by apply (Hsame _ r2 Hleft)|]. cbn. split; [exact Hfiles2|].
        rewrite Hlog2, <- !app_assoc. eexists; reflexivity. }
  destruct (require_resolve E path) as [fp|e].
  - apply Hrest; cbn; try reflexivity. exists []. by rewrite app_nil_r.
  - destruct development; cbv beta iota.
    + apply Hrest; cbn; eauto.
    + cbn. split; [by apply (Hsame _ _ Hw)|]. split; [auto|]. eauto.
Qed.

End Plugin.

(** X7: a path without a usable file name (the empty path, which is the
    default argument, or [.]) is rejected in both modes with the invalid
    path error, before anything is read, started, logged or registered. *)
Theorem unusable_path_is_rejected
    (appName : string) (development : bool) (cwd : string) (E : env)
    (path : string) (w : world) :
  usable_name path = false ->
  importElement appName development cwd E path w
    = (Thrown (invalid_path path), w).
Proof.
  intros Hu. by rewrite ImporterFacts.importElement_eq, Hu.
Qed.

Lemma unusable_path_is_rejected_witness :
  importElement "app" true "/app" env_ok EmptyString (init true)
    = (Thrown (invalid_path EmptyString), init true) /\
  importElement "app" false "/app" env_ok "/app/." (init false)
    = (Thrown (invalid_path "/app/."), init false).
Proof.
  split.
  - apply (unusable_path_is_rejected "app" true "/app" env_ok EmptyString
             (init true)). reflexivity.
  - apply (unusable_path_is_rejected "app" false "/app" env_ok "/app/."
             (init false)). reflexivity.
Defined.

(** X8: in development mode every call with a usable name locates the
    source, stats the bundle, bundles and imports, in this order, whether
    or not the element is registered and whether or not the bundle is on
    disk, and returns; when the source cannot be located the bundler is
    still run, on the empty entry point. *)
Theorem development_call_always_rebundles
    (appName cwd : string) (E : env) (path : string) (w : world) :
  usable_name path = true ->
  fst (importElement appName true cwd E path w) = Returned Js.VUndefined /\
  started appName true cwd E path w =
    [EvResolve path;
     EvStat (outfile_of cwd path);
     EvBuild (match require_resolve E path with
              | Returned filepath => filepath
              | Thrown _ => EmptyString
              end) (outfile_of cwd path);
     EvImport (outfile_of cwd path)].
Proof.
  intros Hu. split; [by apply ImporterFacts.development_never_raises|].
  rewrite ImporterFacts.started_eq, Hu. unfold already_defined. cbn.
  destruct (require_resolve E path); reflexivity.
Qed.

Lemma development_call_always_rebundles_witness :
  let w1 := snd (importElement "app" true "/app" env_ok "/app/content.js"
                   (init true)) in
  started "app" true "/app" env_ok "/app/content.js" w1 =
    [EvResolve "/app/content.js";
     EvStat "/app/dist/server/content.js";
     EvBuild "/app/content.js" "/app/dist/server/content.js";
     EvImport "/app/dist/server/content.js"].
Proof.
  cbv zeta.
  destruct (development_call_always_rebundles "app" "/app" env_ok
              "/app/content.js"
              (snd (importElement "app" true "/app" env_ok "/app/content.js"
                      (init true))) eq_refl) as [_ H].
  exact H.
Defined.

(** X9: in production mode, when the source file cannot be located, the
    call ends with that very error after logging it; nothing but the
    resolution was started, and the files and the registry are as
    before. *)
Theorem production_unresolved_source_is_fatal
    (appName cwd : string) (E : env) (path : string) (w : world)
    (e : Js.error) :
  usable_name path = true ->
  already_defined appName false path w = false ->
  require_resolve E path = Thrown e ->
  importElement appName false cwd E path w
    = (Thrown e, add_log (LogError e) (add_io (EvResolve path) w)) /\
  started appName false cwd E path w = [EvResolve path].
Proof.
  intros Hu Ha Hr. split.
  - by rewrite ImporterFacts.importElement_eq, Hu, Ha,
      ImporterFacts.resolve_step_eq, Hr.
  - by rewrite ImporterFacts.started_eq, Hu, Ha, Hr.
Qed.

Lemma production_unresolved_source_is_fatal_witness :
  fst (importElement "app" false "/app" env_source_missing "/app/content.js"
         (init false))
    = Thrown (Js.Error "Cannot find module '/app/content.js'") /\
  started "app" false "/app" env_source_missing "/app/content.js" (init false)
    = [EvResolve "/app/content.js"].
Proof.
  destruct (production_unresolved_source_is_fatal "app" "/app"
              env_source_missing "/app/content.js" (init false)
              (Js.Error "Cannot find module '/app/content.js'")
              eq_refl eq_refl eq_refl) as [H1 H2].
  split; [by rewrite H1 | exact H2].
Defined.

(** X10: in production mode a failing import ends the call with the error
    of the import, and the error is the last thing logged.  The [define]
    of [importElement] itself is not reached: the registry is as it was, or
    as the code of the bundle left it before the import failed; it is as
    it was when the bundle makes no call on the registry. *)
Theorem production_failed_import_skips_define
    (appName cwd : string) (E : env) (path filepath : string) (w : world)
    (e : Js.error) :
  usable_name path = true ->
  already_defined appName false path w = false ->
  require_resolve E path = Returned filepath ->
  import_result E (outfile_of cwd path)
    (snd (bundle_step false E filepath (outfile_of cwd path)
            (add_io (EvResolve path) w))) = Thrown e ->
  let run := importElement appName false cwd E path w in
  fst run = Thrown e /\
  last (log (snd run)) = Some (LogError e) /\
  left_by_import E (outfile_of cwd path) w (customElements (snd run)) /\
  (module_code E (outfile_of cwd path) = Stop ->
   customElements (snd run) = customElements w).
Proof.
  intros Hu Ha Hr Hi. cbv zeta.
  rewrite ImporterFacts.importElement_eq, Hu, Ha,
    ImporterFacts.resolve_step_eq, Hr, ImporterFacts.import_step_eq, Hi.
  cbn [negb fst snd]. split; [reflexivity|]. split.
  { cbn. by rewrite last_snoc. }
  destruct (bundle_step_world E false filepath (outfile_of cwd path)
              (add_io (EvResolve path) w)) as [H _].
  cbn [customElements add_io] in H.
  pose proof (registry_after_import_cases E (outfile_of cwd path) w _ H)
    as Hleft.
  cbn [customElements add_log with_registry]. split; [exact Hleft|].
  intros Hstop. destruct Hleft as [-> | ->]; [reflexivity|].
  by rewrite Hstop.
Qed.

Lemma production_failed_import_skips_define_witness :
  let E := {| require_resolve := fun p => Returned p;
              esbuild_build := fun _ _ => BuildOk;
              module_code := fun _ => Define "app-content" class_A Stop;
              module_default := fun _ => Returned class_A |} in
  let run := importElement "app" false "/app" E "/app/fallback.js"
               world_registered in
  fst run = Thrown (Registry.already_used "app-content") /\
  last (log (snd run))
    = Some (LogError (Registry.already_used "app-content")).
Proof.
  cbv zeta.
  destruct (production_failed_import_skips_define "app" "/app"
              {| require_resolve := fun p => Returned p;
                 esbuild_build := fun _ _ => BuildOk;
                 module_code := fun _ => Define "app-content" class_A Stop;
                 module_default := fun _ => Returned class_A |}
              "/app/fallback.js" "/app/fallback.js" world_registered
              (Registry.already_used "app-content")
              eq_refl eq_refl eq_refl eq_refl) as (H1 & H2 & _).
  split; [exact H1|exact H2].
Defined.

(** X11: a call changes the registry only through its own [define] on the
    key of the component and through the calls the code of the bundle
    makes while it is imported.  Every other name holds after the call
    what it held before or what the code of the bundle put there, and
    what it held before when the bundle makes no call on the registry; no
    name that was defined stops being defined; no file disappears, and
    the only file that can appear is the bundle of the component. *)
Theorem importElement_changes_are_confined
    (appName : string) (development : bool) (cwd : string) (E : env)
    (path : string) (w : world) :
  let w' := snd (importElement appName development cwd E path w) in
  (exists r1 : Registry.t,
     left_by_import E (outfile_of cwd path) w r1 /\
     forall other : string,
       other <> key_of appName (Path.parse_name path) ->
       Registry.definitions (customElements w') !! other
         = Registry.definitions r1 !! other) /\
  (module_code E (outfile_of cwd path) = Stop ->
   forall other : string,
     other <> key_of appName (Path.parse_name path) ->
     Registry.definitions (customElements w') !! other
       = Registry.definitions (customElements w) !! other) /\
  (forall n : string,
     Registry.has (customElements w) n = true ->
     Registry.has (customElements w') n = true) /\
  files w ⊆ files w' /\
  files w' ⊆ {[ outfile_of cwd path ]} ∪ files w.
Proof.
  cbv zeta.
  destruct (importElement_world appName cwd E development path w)
    as ((r1 & v & Hleft & Hreg) & Hfiles & _).
  rewrite Hreg. split; [|split; [|split]].
  - exists r1. split; [exact Hleft|].
    intros other Hne. by apply RegistryMore.define_other.
  - intros Hstop other Hne. rewrite RegistryMore.define_other by exact Hne.
    destruct Hleft as [-> | ->]; [reflexivity|]. by rewrite Hstop.
  - intros n Hn. apply RegistryMore.define_keeps_defined.
    destruct Hleft as [-> | ->]; [exact Hn|].
    by apply evaluate_keeps_defined.
  - destruct Hfiles as [-> | ->]; set_solver.
Qed.

Lemma importElement_changes_are_confined_witness :
  let w' := snd (importElement "app" true "/app" env_ok "/app/fallback.js"
                   world_registered) in
  Registry.definitions (customElements w') !! "app-content"
    = Registry.definitions (customElements world_registered) !! "app-content" /\
  Registry.has (customElements w') "app-content" = true.
Proof.
  cbv zeta.
  destruct (importElement_changes_are_confined "app" true "/app"
              env_ok "/app/fallback.js" world_registered)
    as (_ & Hother & Hkept & _).
  split.
  - apply Hother; [reflexivity|discriminate].
  - apply Hkept. reflexivity.
Defined.

(** X12: in a production process an entry of the registry, once made, is
    never changed by any series of [importElement] calls, whatever paths
    are imported and whatever the imports yield. *)
Theorem production_imports_never_replace
    (appName cwd : string) (E : env) (paths : list string) (w : world)
    (n : string) (d : Registry.definition) :
  Registry.development (customElements w) = false ->
  Registry.definitions (customElements w) !! n = Some d ->
  Registry.definitions
    (customElements (ImporterSeries.import_all appName false cwd E paths w))
    !! n = Some d.
Proof.
  revert w. induction paths as [|path paths IH]; intros w Hmode Hd;
    [exact Hd|].
  cbn [ImporterSeries.import_all].
  destruct (importElement_world appName cwd E false path w)
    as ((r1 & v & Hleft & Hreg) & _).
  assert (Hr1 : Registry.development r1 = false /\
                Registry.definitions r1 !! n = Some d).
  { destruct Hleft as [-> | ->]; [by split|]. split.
    - by rewrite evaluate_keeps_mode.
    - by apply evaluate_production_keeps. }
  destruct Hr1 as [Hmode1 Hd1].
  apply IH; rewrite Hreg.
  - by rewrite RegistryFacts.define_keeps_mode.
  - by apply RegistryMore.define_production_keeps.
Qed.

Lemma production_imports_never_replace_witness :
  Registry.definitions
    (customElements
       (ImporterSeries.import_all "app" false "/app" env_ok
          ["/app/fallback.js"; "/app/content.js"; "/app/x/content.ts"]
          world_registered))
    !! "app-content"
  = Some {| Registry.ctor := class_A; Registry.observedAttributes := ["open"] |}.
Proof.
  apply (production_imports_never_replace "app" "/app" env_ok
           ["/app/fallback.js"; "/app/content.js"; "/app/x/content.ts"]
           world_registered "app-content");
    reflexivity.
Defined.

Lemma files_import_step
    (development : bool) (E : env) (outfile : string) (w : world) :
  files (snd (import_step development E outfile w)) = files w.
Proof.
  rewrite ImporterFacts.import_step_eq.
  destruct (import_result E outfile w); reflexivity.
Qed.

Lemma files_define_step
    (development : bool) (key : string) (v : Js.value) (w : world) :
  files (snd (define_step development key v w)) = files w.
Proof.
  rewrite ImporterFacts.define_step_eq.
  destruct (Registry.define key v (customElements w)) as [[[]|e] r];
    reflexivity.
Qed.

(** The files after the import and the define that follow the bundling
    step. *)
Lemma files_from_import (development : bool) (E : env)
    (outfile key : string) (w2 : world) :
  files (snd (match import_step development E outfile w2 with
              | (Thrown e, w3) => (Thrown e, w3)
              | (Returned v, w3) =>
                  match define_step development key v w3 with
                  | (Thrown e, w4) => (Thrown e, w4)
                  | (Returned _, w4) => (Returned Js.VUndefined, w4)
                  end
              end)) = files w2.
Proof.
  pose proof (files_import_step development E outfile w2) as Hi.
  destruct (import_step development E outfile w2) as [[v|e] w3];
    cbn [snd] in *; [|exact Hi].
  pose proof (files_define_step development key v w3) as Hd.
  destruct (define_step development key v w3) as [[[]|e] w4];
    cbn [snd] in *; congruence.
Qed.

(** X13: in production mode a call whose bundling succeeded leaves the
    bundle on disk, and the next production call with the same path does
    not bundle again. *)
Theorem production_bundles_once
    (appName cwd : string) (E : env) (path filepath : string) (w : world) :
  usable_name path = true ->
  already_defined appName false path w = false ->
  require_resolve E path = Returned filepath ->
  esbuild_build E filepath (outfile_of cwd path) = BuildOk ->
  let w1 := snd (importElement appName false cwd E path w) in
  outfile_of cwd path ∈ files w1 /\
  existsb is_build (started appName false cwd E path w1) = false.
Proof.
  intros Hu Ha Hr Hb. cbv zeta.
  assert (Hin : outfile_of cwd path
                ∈ files (snd (importElement appName false cwd E path w))).
  { rewrite ImporterFacts.importElement_eq, Hu, Ha,
      ImporterFacts.resolve_step_eq, Hr.
    cbn [negb]. rewrite files_from_import, ImporterFacts.bundle_step_eq.
    cbn [snd orb files add_io].
    destruct (bool_decide (outfile_of cwd path ∈ files w)) eqn:Hex; cbn [negb].
    - cbn. apply bool_decide_eq_true in Hex. exact Hex.
    - unfold after_build. rewrite Hb. cbn. set_solver. }
  split; [exact Hin|].
  rewrite ImporterFacts.started_eq, Hu. cbn [negb orb].
  destruct (already_defined appName false path
              (snd (importElement appName false cwd E path w)));
    [reflexivity|].
  rewrite Hr, (bool_decide_eq_true_2 _ Hin). reflexivity.
Qed.

Lemma production_bundles_once_witness :
  let w1 := snd (importElement "app" false "/app" env_no_default
                   "/app/content.js" (init false)) in
  ("/app/dist/server/content.js" ∈ files w1) /\
  started "app" false "/app" env_no_default "/app/content.js" w1 =
    [EvResolve "/app/content.js"; EvStat "/app/dist/server/content.js";
     EvImport "/app/dist/server/content.js"].
Proof.
  cbv zeta.
  destruct (production_bundles_once "app" "/app" env_no_default
              "/app/content.js" "/app/content.js" (init false)
              eq_refl eq_refl eq_refl eq_refl) as [Hin _].
  split; [exact Hin|]. reflexivity.
Defined.

(** X14: in development mode a call whose bundling succeeds and whose
    bundle exports a truthy value puts that value under the key, whatever
    was registered there before: an edited component replaces the old
    one. *)
Theorem development_import_replaces
    (appName cwd : string) (E : env) (path : string) (w : world)
    (c : Js.value) :
  usable_name path = true ->
  Registry.development (customElements w) = true ->
  esbuild_build E
    (match require_resolve E path with
     | Returned filepath => filepath
     | Thrown _ => EmptyString
     end) (outfile_of cwd path) = BuildOk ->
  module_default E (outfile_of cwd path) = Returned c ->
  Js.truthy c = true ->
  let run := importElement appName true cwd E path w in
  fst run = Returned Js.VUndefined /\
  Registry.get (customElements (snd run))
    (key_of appName (Path.parse_name path)) = c.
Proof.
  intros Hu Hmode Hb Hm Hc. cbv zeta.
  split; [by apply ImporterFacts.development_never_raises|].
  rewrite ImporterFacts.importElement_eq, Hu. cbn [negb].
  unfold already_defined. cbn [negb andb].
  rewrite ImporterFacts.resolve_step_eq.
  assert (Hrest : forall (fp : string) (w1 : world),
    esbuild_build E fp (outfile_of cwd path) = BuildOk ->
    customElements w1 = customElements w ->
    Registry.get
      (customElements
         (snd (match import_step true E (outfile_of cwd path)
                       (snd (bundle_step true E fp (outfile_of cwd path) w1))
               with
               | (Thrown e, w3) => (Thrown e, w3)
               | (Returned v, w3) =>
                   match define_step true
                           (key_of appName (Path.parse_name path)) v w3 with
                   | (Thrown e, w4) => (Thrown e, w4)
                   | (Returned _, w4) => (Returned Js.VUndefined, w4)
                   end
               end)))
      (key_of appName (Path.parse_name path)) = c).
  { intros fp w1 Hbuild Hreg.
    rewrite ImporterFacts.bundle_step_eq. cbn [snd orb].
    unfold after_build at 1. rewrite Hbuild.
    set (w2 := add_file (outfile_of cwd path) _).
    assert (Hreg2 : customElements w2 = customElements w) by exact Hreg.
    assert (Hres : import_result E (outfile_of cwd path) w2 = Returned c).
    { unfold import_result.
      rewrite bool_decide_eq_true_2 by (cbn; set_solver).
      rewrite Hreg2.
      pose proof (evaluate_development_returns
                    (module_code E (outfile_of cwd path)) (customElements w)
                    Hmode) as Hev.
      destruct (evaluate _ _) as [[[]|e] r]; [exact Hm|discriminate]. }
    pose proof (registry_after_import_mode E (outfile_of cwd path) w2)
      as Hmode2.
    rewrite Hreg2, Hmode in Hmode2.
    rewrite ImporterFacts.import_step_eq, Hres, ImporterFacts.define_step_eq.
    cbn [customElements with_registry].
    destruct (RegistryFacts.define_cases
                (key_of appName (Path.parse_name path)) c
                (registry_after_import E (outfile_of cwd path) w2))
      as [[_ [Hk|Hk]]|[(_ & _ & _ & Hd & _)|[Hd _]]].
    - by rewrite ImporterFacts.key_truthy in Hk.
    - congruence.
    - congruence.
    - rewrite Hd. cbn. apply RegistryFacts.get_set. }
  destruct (require_resolve E path) as [fp|e]; cbv beta iota;
    by apply Hrest.
Qed.

Lemma development_import_replaces_witness :
  let E := {| require_resolve := fun p => Returned p;
              esbuild_build := fun _ _ => BuildOk;
              module_code := fun _ => Stop;
              module_default := fun _ => Returned (Js.VClass 7 None) |} in
  let w := {| customElements := registered_content true;
              files := ∅; io := []; log := [] |} in
  Registry.get (customElements w) "app-content" = class_A /\
  Registry.get
    (customElements
       (snd (importElement "app" true "/app" E "/app/content.js" w)))
    "app-content" = Js.VClass 7 None.
Proof.
  cbv zeta. split; [reflexivity|].
  destruct (development_import_replaces "app" "/app"
              {| require_resolve := fun p => Returned p;
                 esbuild_build := fun _ _ => BuildOk;
                 module_code := fun _ => Stop;
              module_default := fun _ => Returned (Js.VClass 7 None) |}
              "/app/content.js"
              {| customElements := registered_content true;
                 files := ∅; io := []; log := [] |}
              (Js.VClass 7 None) eq_refl eq_refl eq_refl eq_refl eq_refl)
    as [_ H].
  exact H.
Defined.

End ImporterMore.

(** ** More on the content and fallback routes *)

Module RoutesMore.
Import Routes Samples.

Section Plugin.
Variables (prefix name : string) (version : option string)
          (locale : string) (development : bool)
          (config_mode : option string) (cwd : string).
Variables (contentFilePath fallbackFilePath : string).
Variables (IE : Importer.env) (RE : env).

Local Abbreviation mode := (mode config_mode).
Local Abbreviation import_ :=
  (import_if_rendered_on_server name development config_mode cwd IE).
Local Abbreviation hydrateSupport :=
  (hydrateSupport prefix development config_mode).
Local Abbreviation content_markup :=
  (content_markup name version locale config_mode).
Local Abbreviation fallback_markup :=
  (fallback_markup name version locale config_mode).
Local Abbreviation answer := (answer prefix development config_mode RE).
Local Abbreviation content :=
  (content_handler prefix name version locale development config_mode cwd
     contentFilePath IE RE).
Local Abbreviation fallback :=
  (fallback_handler prefix name version locale development config_mode cwd
     fallbackFilePath IE RE).

(** The two ways an answer can go. *)
Lemma answer_cases
    (state : outcome (option string)) (markup : string -> string -> part)
    (w : Importer.world) :
  (exists tr st : string,
     answer state markup w
       = (Returned (html_reply (hydrateSupport ++ [markup tr st])), w)) \/
  (exists e : Js.error,
     answer state markup w
       = (Returned untouched_reply,
          Importer.add_log (Importer.LogError e) w)).
Proof.
  unfold Routes.answer.
  destruct state as [st|e]; [|right; eauto].
  destruct (read_translations RE) as [ms|e]; [|right; eauto].
  destruct (render_error RE _); [right; eauto|left; eauto].
Qed.

Lemma content_cases (request : string) (w : Importer.world) :
  let w1 := snd (import_ contentFilePath w) in
  (exists tr st : string,
     content request w
       = (Returned (html_reply (hydrateSupport ++ [content_markup tr st])),
          w1)) \/
  (exists e : Js.error,
     content request w
       = (Returned untouched_reply,
          Importer.add_log (Importer.LogError e) w1)).
Proof.
  cbv zeta. rewrite RoutesFacts.content_handler_eq.
  destruct (import_ contentFilePath w) as [[[]|e] w1]; cbn [snd].
  - apply answer_cases.
  - right. eauto.
Qed.

Lemma fallback_cases (request : string) (w : Importer.world) :
  let w1 := snd (import_ fallbackFilePath w) in
  (exists tr st : string,
     fallback request w
       = (Returned (html_reply (hydrateSupport ++ [fallback_markup tr st])),
          w1)) \/
  (exists e : Js.error,
     fallback request w
       = (Returned untouched_reply,
          Importer.add_log (Importer.LogError e) w1)).
Proof.
  cbv zeta. rewrite RoutesFacts.fallback_handler_eq.
  destruct (import_ fallbackFilePath w) as [[[]|e] w1]; cbn [snd].
  - apply answer_cases.
  - right. eauto.
Qed.

(** X15: a route handler never raises.  The import step does its own
    logging; after it, the handler either sends an HTML body and adds
    nothing to the log, or adds exactly one entry, the error it caught (of
    the import, of the state function, of the translations or of the
    rendering), and returns the reply with nothing sent. *)
Theorem route_handlers_never_raise (request : string) (w : Importer.world) :
  (let w1 := snd (import_ contentFilePath w) in
   (exists b : list part,
      content request w = (Returned (html_reply b), w1)) \/
   (exists e : Js.error,
      content request w
        = (Returned untouched_reply,
           Importer.add_log (Importer.LogError e) w1))) /\
  (let w1 := snd (import_ fallbackFilePath w) in
   (exists b : list part,
      fallback request w = (Returned (html_reply b), w1)) \/
   (exists e : Js.error,
      fallback request w
        = (Returned untouched_reply,
           Importer.add_log (Importer.LogError e) w1))).
Proof.
  split; cbv zeta.
  - destruct (content_cases request w) as [(tr & st & H)|H]; eauto.
  - destruct (fallback_cases request w) as [(tr & st & H)|H]; eauto.
Qed.

Lemma import_skipped (file : string) (w : Importer.world) :
  mode = "csr-only" -> import_ file w = (Returned tt, w).
Proof.
  intros Hm. unfold import_if_rendered_on_server. by rewrite Hm.
Qed.

(** X16: in mode [csr-only] neither route imports the element: the
    registry, the files and the calls made outside are after the request
    what they were before. *)
Theorem csr_only_routes_import_nothing (request : string) (w : Importer.world) :
  mode = "csr-only" ->
  (let w' := snd (content request w) in
   Importer.customElements w' = Importer.customElements w /\
   Importer.files w' = Importer.files w /\
   Importer.io w' = Importer.io w) /\
  (let w' := snd (fallback request w) in
   Importer.customElements w' = Importer.customElements w /\
   Importer.files w' = Importer.files w /\
   Importer.io w' = Importer.io w).
Proof.
  intros Hm. split; cbv zeta.
  - pose proof (content_cases request w) as H. cbv zeta in H.
    rewrite (import_skipped contentFilePath w Hm) in H.
    destruct H as [(tr & st & ->)|[e ->]]; repeat split.
  - pose proof (fallback_cases request w) as H. cbv zeta in H.
    rewrite (import_skipped fallbackFilePath w Hm) in H.
    destruct H as [(tr & st & ->)|[e ->]]; repeat split.
Qed.

Lemma hydrateSupport_script (p : part) :
  In p hydrateSupport -> is_script p = true /\ mode = "hydrate".
Proof.
  unfold Routes.hydrateSupport.
  destruct (String.eqb_spec mode "hydrate") as [Hm|Hm]; [|intros []].
  intros [<-|[]]. by split.
Qed.

Lemma content_markup_no_script (tr st : string) :
  is_script (content_markup tr st) = false.
Proof.
  unfold Routes.content_markup.
  destruct (String.eqb mode "ssr-only"); [reflexivity|].
  destruct (String.eqb mode "csr-only"); reflexivity.
Qed.

Lemma fallback_markup_no_script (tr st : string) :
  is_script (fallback_markup tr st) = false.
Proof.
  rewrite RoutesFacts.fallback_markup_eq.
  destruct (String.eqb mode "ssr-only"); reflexivity.
Qed.

Lemma script_iff_hydrate (p : part) (b : list part) :
  is_script p = false ->
  b = hydrateSupport ++ [p] ->
  contains_script b <-> mode = "hydrate".
Proof.
  intros Hp ->. split.
  - intros (url & dev & H). apply in_app_or in H as [H|[H|[]]].
    + by apply hydrateSupport_script in H as [_ H].
    + subst p. discriminate.
  - intros Hm. exists (hydrate_support_url prefix), development.
    apply in_or_app. left. unfold Routes.hydrateSupport. rewrite Hm.
    left. reflexivity.
Qed.

(** X17: a body sent by either route contains a script reference exactly
    when the mode is [hydrate]. *)
Theorem script_is_sent_iff_hydrate (request : string) (w : Importer.world) :
  (forall b : list part,
     body_of (content request w) = Some b ->
     (contains_script b <-> mode = "hydrate")) /\
  (forall b : list part,
     body_of (fallback request w) = Some b ->
     (contains_script b <-> mode = "hydrate")).
Proof.
  split; intros b; unfold body_of.
  - destruct (content_cases request w) as [(tr & st & ->)|[e ->]];
      cbn; [|discriminate].
    intros [= <-].
    apply (script_iff_hydrate (content_markup tr st));
      [apply content_markup_no_script | reflexivity].
  - destruct (fallback_cases request w) as [(tr & st & ->)|[e ->]];
      cbn; [|discriminate].
    intros [= <-].
    apply (script_iff_hydrate (fallback_markup tr st));
      [apply fallback_markup_no_script | reflexivity].
Qed.

(** X18: the content route hands the raw element to the client renderer
    exactly in mode [csr-only]; the fallback route never does, whatever
    the mode. *)
Theorem raw_element_only_on_content_route
    (request : string) (w : Importer.world) :
  (forall b : list part,
     body_of (content request w) = Some b ->
     ((exists route raw : string, In (Csr route raw) b) <->
      mode = "csr-only")) /\
  (forall b : list part,
     body_of (fallback request w) = Some b ->
     ~ exists route raw : string, In (Csr route raw) b).
Proof.
  split; intros b; unfold body_of.
  - destruct (content_cases request w) as [(tr & st & ->)|[e ->]];
      cbn; [|discriminate].
    intros [= <-]. split.
    + intros (route & raw & H). apply in_app_or in H as [H|[H|[]]].
      * apply hydrateSupport_script in H as [H _]. discriminate.
      * revert H. unfold Routes.content_markup.
        destruct (String.eqb_spec mode "ssr-only"); [discriminate|].
        destruct (String.eqb_spec mode "csr-only"); [done|discriminate].
    + intros Hm. eexists _, _. apply in_or_app. right. left.
      unfold Routes.content_markup. rewrite Hm. reflexivity.
  - destruct (fallback_cases request w) as [(tr & st & ->)|[e ->]];
      cbn; [|discriminate].
    intros [= <-] (route & raw & H). apply in_app_or in H as [H|[H|[]]].
    + apply hydrateSupport_script in H as [H _]. discriminate.
    + rewrite RoutesFacts.fallback_markup_eq in H.
      destruct (String.eqb mode "ssr-only"); discriminate.
Qed.

End Plugin.

Lemma csr_only_routes_import_nothing_witness :
  let w' :=
    snd (content_handler "/" "app" (Some "1.0.0") "en" false (Some "csr-only")
           "/app" "/app/content.js" env_ok renv_ok "GET /"
           (Importer.init false)) in
  Importer.customElements w' = Importer.customElements (Importer.init false) /\
  Importer.files w' = Importer.files (Importer.init false) /\
  Importer.io w' = Importer.io (Importer.init false).
Proof.
  cbv zeta.
  destruct (csr_only_routes_import_nothing "/" "app" (Some "1.0.0") "en"
              false (Some "csr-only") "/app" "/app/content.js"
              "/app/fallback.js" env_ok renv_ok "GET /" (Importer.init false)
              eq_refl) as [H _].
  exact H.
Defined.

Lemma script_is_sent_iff_hydrate_witness :
  contains_script
    [Script
       "/_/dynamic/modules/@lit-labs/ssr-client/lit-element-hydrate-support.js"
       false;
     Hydrate "content"
       (template_of "app" (Some "1.0.0") "en" "content" EmptyString "{}")].
Proof.
  destruct (script_is_sent_iff_hydrate "/" "app" (Some "1.0.0") "en" false
              (Some "hydrate") "/app" "/app/content.js" "/app/fallback.js"
              env_ok renv_ok "GET /" (Importer.init false)) as [H _].
  apply (H _ eq_refl). reflexivity.
Defined.

Lemma raw_element_only_on_content_route_witness :
  exists route raw : string,
    In (Csr route raw)
      [Csr "content"
         (raw_element "app" (Some "1.0.0") "en" "content" EmptyString "{}")].
Proof.
  destruct (raw_element_only_on_content_route "/" "app" (Some "1.0.0") "en"
              false (Some "csr-only") "/app" "/app/content.js"
              "/app/fallback.js" env_ok renv_ok "GET /"
              (Importer.init false)) as [H _].
  apply (H _ eq_refl). reflexivity.
Defined.

End RoutesMore.

(** ** The client watcher over a series of events *)

Module WatchFacts.
Import Build Watch.

Section Dev.
Variable cwd : string.
Variable resolver : gset string -> string -> resolution.
Variable rebuild_result : context -> gset string -> outcome unit.

Local Abbreviation handler := (clientFileChange cwd resolver rebuild_result).
Local Abbreviation dispatch := (dispatch cwd resolver rebuild_result).
Local Abbreviation run := (run cwd resolver rebuild_result).

(** The world a client file event leaves. *)
Lemma clientFileChange_world (type filename : string) (w : world) :
  snd (handler type filename w) =
  match rebuild_result (buildContext w) (disk w) with
  | Returned _ =>
      {| disk := disk w; clientFiles := clientFiles w;
         CONTENT_FILEPATH := CONTENT_FILEPATH w;
         FALLBACK_FILEPATH := FALLBACK_FILEPATH w;
         buildContext := buildContext w; next_id := next_id w;
         io := io w ++ [EvRebuild (ctx_id (buildContext w))];
         debug_log :=
           debug_log w
           ++ ["file " +:+ type +:+ ": " +:+ filename;
               "bundles rebuilt: " +:+ join_comma (clientFiles w)] |}
  | Thrown _ =>
      let files :=
        clientFiles w
        ++ map (client_file cwd) (existing_entries resolver (disk w)) in
      {| disk := disk w; clientFiles := files;
         CONTENT_FILEPATH := Some (resolver (disk w) "./content");
         FALLBACK_FILEPATH := Some (resolver (disk w) "./fallback");
         buildContext :=
           {| ctx_id := next_id w;
              entryPoints := existing_entries resolver (disk w) |};
         next_id := S (next_id w);
         io := io w
               ++ EvRebuild (ctx_id (buildContext w))
                  :: EvDispose (ctx_id (buildContext w))
                  :: creation_calls resolver (next_id w) (disk w);
         debug_log :=
           debug_log w
           ++ ["file " +:+ type +:+ ": " +:+ filename;
               "bundles rebuilt: " +:+ join_comma files] |}
  end.
Proof.
  destruct w as [d files content fallback old next calls logged].
  unfold clientFileChange, rebuild, dispose.
  cbv [mbind M_bind bind mret M_ret ret get_state modify emit debug
       try_catch of_outcome set_buildContext
       disk clientFiles CONTENT_FILEPATH FALLBACK_FILEPATH buildContext
       next_id io debug_log].
  destruct (rebuild_result old d) as [[]|e].
  - cbn. by rewrite <- app_assoc.
  - rewrite BuildFacts.createBuildContext_eq. cbn.
    by rewrite <- !app_assoc.
Qed.

(** A client file event adds one rebuild call, and may go on to open a
    context. *)
Lemma handler_io (type filename : string) (w : world) :
  exists calls : list event,
    io (snd (handler type filename w)) = io w ++ calls /\
    count is_rebuild calls = 1.
Proof.
  rewrite clientFileChange_world.
  destruct (rebuild_result (buildContext w) (disk w)); cbn [io]; eauto.
Qed.

Lemma count_app (p : event -> bool) (l1 l2 : list event) :
  count p (l1 ++ l2) = count p l1 + count p l2.
Proof. unfold count. by rewrite filter_app, length_app. Qed.

(** An event runs the handler once for every listener registered for its
    kind. *)
Lemma dispatch_io (listeners : list (string * string))
    (kind filename : string) (w : world) :
  exists calls : list event,
    io (dispatch listeners kind filename w) = io w ++ calls /\
    count is_rebuild calls = registered kind listeners.
Proof.
  revert w. induction listeners as [|[k type] listeners IH]; intros w.
  - exists []. split; [by rewrite app_nil_r | reflexivity].
  - cbn [Watch.dispatch registered]. destruct (String.eqb k kind).
    + destruct (handler_io type filename w) as (c1 & H1 & N1).
      destruct (IH (snd (handler type filename w))) as (c2 & H2 & N2).
      exists (c1 ++ c2).
      rewrite H2, H1, <- app_assoc, count_app, N1, N2. by split.
    + destruct (IH w) as (c2 & H2 & N2). exists c2. by split.
Qed.

Lemma registered_app (kind : string) (l1 l2 : list (string * string)) :
  registered kind (l1 ++ l2) = registered kind l1 + registered kind l2.
Proof.
  induction l1 as [|[k type] l1 IH]; [reflexivity|].
  cbn [Datatypes.app registered]. rewrite IH. lia.
Qed.

(** A [ready] registers one listener for each of the three kinds. *)
Lemma registered_on_ready (kind : string) :
  registered kind on_ready = if handled_kind kind then 1 else 0.
Proof.
  unfold on_ready, handled_kind. cbn [registered].
  rewrite (String.eqb_sym "change"), (String.eqb_sym "add"),
    (String.eqb_sym "unlink").
  destruct (String.eqb_spec kind "change") as [->|_]; [reflexivity|].
  destruct (String.eqb_spec kind "add") as [->|_]; [reflexivity|].
  destruct (String.eqb_spec kind "unlink") as [->|_]; reflexivity.
Qed.

(** The rebuild calls of a series of inputs, when each [ready] so far has
    left its three listeners. *)
Lemma run_io (inputs : list input) (listeners : list (string * string))
    (readies : nat) (w : world) :
  (forall kind : string,
     registered kind listeners = if handled_kind kind then readies else 0) ->
  exists calls : list event,
    io (snd (run inputs listeners w)) = io w ++ calls /\
    count is_rebuild calls = rebuilds_expected readies inputs.
Proof.
  revert listeners readies w.
  induction inputs as [|i inputs IH]; intros listeners readies w Hl.
  - exists []. split; [by rewrite app_nil_r | reflexivity].
  - destruct i as [|kind filename|d]; cbn [Watch.run rebuilds_expected].
    + apply IH. intros kind.
      rewrite registered_app, registered_on_ready, Hl.
      destruct (handled_kind kind); lia.
    + destruct (dispatch_io listeners kind filename w) as (c1 & H1 & N1).
      destruct (IH listeners readies (dispatch listeners kind filename w) Hl)
        as (c2 & H2 & N2).
      exists (c1 ++ c2).
      rewrite H2, H1, <- app_assoc, count_app, N1, N2, Hl. by split.
    + destruct (IH listeners readies (set_disk d w) Hl) as (c2 & H2 & N2).
      exists c2. by split.
Qed.

(** X19: file events that arrive before the watcher is ready, as those of
    its first scan do, run no handler: nothing is rebuilt, the build
    context and the list of client files stay as they are. *)
Theorem events_before_ready_are_ignored (inputs : list input) (w : world) :
  has_ready inputs = false ->
  let w' := snd (run inputs [] w) in
  io w' = io w /\ buildContext w' = buildContext w /\
  clientFiles w' = clientFiles w.
Proof.
  revert w. induction inputs as [|i inputs IH]; intros w Hr; [by cbn|].
  destruct i as [|kind filename|d]; [discriminate| |].
  - apply (IH w Hr).
  - apply (IH (set_disk d w) Hr).
Qed.

(** X20: every change, add or unlink event makes one [rebuild()] call for
    each [ready] the watcher has emitted before it, since every [ready]
    registers the three listeners again: none before the first [ready],
    one per event when [ready] was emitted once, two when it was emitted
    twice.  Events of any other kind make none. *)
Theorem rebuilds_follow_ready (inputs : list input) (w : world) :
  count is_rebuild (drop (length (io w)) (io (snd (run inputs [] w))))
  = rebuilds_expected 0 inputs.
Proof.
  destruct (run_io inputs [] 0 w) as (calls & -> & N).
  - intros kind. cbn. by destruct (handled_kind kind).
  - by rewrite drop_app_length.
Qed.

(** *** One live context *)








(** X22: the list of client files is never cleared: a successful rebuild
    leaves it as it is, and every recreation of the context appends the
    output names of the entry points found then, those already listed
    included. *)
Theorem clientFiles_only_grows (type filename : string) (w : world) :
  (forall u : unit,
     rebuild_result (buildContext w) (disk w) = Returned u ->
     clientFiles (snd (handler type filename w)) = clientFiles w) /\
  (forall e : Js.error,
     rebuild_result (buildContext w) (disk w) = Thrown e ->
     clientFiles (snd (handler type filename w)) =
       clientFiles w
       ++ map (client_file cwd) (existing_entries resolver (disk w))).
Proof.
  rewrite clientFileChange_world.
  split; intros x Hx; by rewrite Hx.
Qed.

End Dev.

(** C1 at the failing input: the watcher emits [ready] twice, then one
    file changes.  The [ready] callback has registered the listeners
    twice, so the one event runs the handler twice and two [rebuild()]
    calls are made for it, whatever the rebuilds yield; when both fail,
    two contexts are disposed and two are opened.  Each run of the handler
    on its own does what the claim says. *)
Theorem repeated_ready_repeats_rebuild :
  (forall (cwd : string) (resolver : gset string -> string -> resolution)
          (rebuild_result : context -> gset string -> outcome unit)
          (filename : string) (w : world),
     count is_rebuild
       (drop (length (io w))
          (io (snd (run cwd resolver rebuild_result
                      [Ready; Ready; File "change" filename] [] w))))
     = 2) /\
  (let w := Samples.started_up Samples.disk_two in
   let calls :=
     drop (length (io w))
       (io (snd (run "/app" (js_or_ts "/app")
                   (fun _ _ => Thrown (Js.Error "Could not resolve"))
                   [Ready; Ready; File "change" "content.js"] [] w))) in
   count is_rebuild calls = 2 /\
   count is_dispose calls = 2 /\
   count is_context calls = 2).
Proof.
  split.
  - intros cwd resolver rebuild_result filename w.
    destruct (run_io cwd resolver rebuild_result
                [Ready; Ready; File "change" filename] [] 0 w)
      as (calls & -> & N).
    + intros kind. cbn. by destruct (handled_kind kind).
    + by rewrite drop_app_length.
  - vm_compute. repeat split.
Qed.

Lemma events_before_ready_are_ignored_witness :
  io (snd (run "/app" (js_or_ts "/app") (Samples.stale_when_changed ∅)
             [File "add" "content.js"; File "add" "scripts.js"] []
             (Samples.started_up Samples.disk_two)))
  = io (Samples.started_up Samples.disk_two).
Proof.
  destruct (events_before_ready_are_ignored "/app" (js_or_ts "/app")
              (Samples.stale_when_changed ∅)
              [File "add" "content.js"; File "add" "scripts.js"]
              (Samples.started_up Samples.disk_two) eq_refl) as [H _].
  exact H.
Defined.

Lemma clientFiles_only_grows_witness :
  clientFiles
    (snd (clientFileChange "/app" (js_or_ts "/app")
            (Samples.stale_when_changed ∅) "deleted" "lib/util.js"
            (Samples.started_up Samples.disk_two)))
  = ["dist/content.js"; "dist/scripts.js";
     "dist/content.js"; "dist/scripts.js"].
Proof.
  destruct (clientFiles_only_grows "/app" (js_or_ts "/app")
              (Samples.stale_when_changed ∅) "deleted" "lib/util.js"
              (Samples.started_up Samples.disk_two)) as [_ H].
  rewrite (H (Js.Error "Could not resolve") eq_refl). reflexivity.
Defined.

End WatchFacts.

(** ** The development server: start, restart and the server file handler *)

Module DevServerMore.
Import DevServer.

Ltac run_server :=
  cbv [serverFileChange DevServer.restart DevServer.start setup_and_close
       setup_begin setup_end close_begin close_end listen_begin listen_end
       write_log
       mbind M_bind bind mret M_ret ret get_state modify emit set_app
       set_listening set_pending set_closing fresh_app try_catch of_outcome
       throw app listening pending closing next_app trace log fst snd].

Section Server.
Variable port : Z.
Variable setup_result : nat -> outcome unit.
Variable reload_result : outcome unit.
Variable close_ends_first : bool.

Local Abbreviation start := (start port setup_result).
Local Abbreviation handler :=
  (serverFileChange port setup_result reload_result close_ends_first).

(** The handler ends normally and its log lines begin with the file line
    and end with the restarted line. *)
Lemma handler_log (type filename : string) (s : state) :
  fst (handler type filename s) = Returned tt /\
  exists entries : list log_entry,
    log (snd (handler type filename s)) =
    (log s ++ LogDebug ("file " +:+ type +:+ ": " +:+ filename) :: entries)
    ++ [LogDebug "server restarted"].
Proof.
  destruct s as [a l p c n t lg]. run_server.
  destruct reload_result as [[]|e]; cbv beta iota.
  - destruct (setup_result n) as [[]|e]; cbv beta iota.
    + destruct close_ends_first, a as [a|]; cbv beta iota;
        try destruct (bool_decide (l = Some a)); cbv beta iota;
        split; try reflexivity; exists []; reflexivity.
    + destruct close_ends_first, a as [a|]; cbv beta iota;
        try destruct (bool_decide (l = Some a)); cbv beta iota;
        split; try reflexivity; exists [LogError e];
        rewrite <- !app_assoc; reflexivity.
  - split; [reflexivity|]. exists [LogError e].
    rewrite <- !app_assoc. reflexivity.
Qed.

(** X23: the server file handler never raises, whatever fails inside it
    (the reload, the setup of the new instance), and its last log line
    always says that the server was restarted. *)
Theorem serverFileChange_never_raises (type filename : string) (s : state) :
  fst (handler type filename s) = Returned tt /\
  last (log (snd (handler type filename s))) =
    Some (LogDebug "server restarted").
Proof.
  destruct (handler_log type filename s) as [Hr [entries ->]].
  split; [exact Hr|]. apply last_snoc.
Qed.

(** X24: when [local.reload()] fails, no restart is attempted: the running
    instance is neither closed nor replaced and no new instance is set up;
    the error is logged and the build context is disposed. *)
Theorem failed_reload_skips_restart (type filename : string) (s : state)
    (e : Js.error) :
  reload_result = Thrown e ->
  let s' := snd (handler type filename s) in
  app s' = app s /\ listening s' = listening s /\
  pending s' = pending s /\ next_app s' = next_app s /\
  trace s' = trace s ++ [Reload; DisposeBuildContext] /\
  In (LogError e) (log s').
Proof.
  intros He. cbv zeta. destruct s as [a l p c n t lg]. run_server.
  rewrite He. cbv beta iota. rewrite <- !app_assoc.
  repeat split. apply in_or_app. right. cbn. tauto.
Qed.

(** Nothing under way: the event loop has nothing to end. *)
Lemma settle_nothing (s : state) :
  closing s = [] -> pending s = [] -> settle port s = s.
Proof.
  destruct s as [a l p c n t lg]. cbn [closing pending]. intros -> ->.
  reflexivity.
Qed.

(** One close under way, of the instance that holds the port, and no
    listen: the close ends and the port is free. *)
Lemma settle_close (s : state) (a : nat) :
  closing s = [a] ->
  listening s = Some a ->
  pending s = [] ->
  settle port s =
  {| app := app s; listening := None; pending := []; closing := [];
     next_app := next_app s; trace := trace s ++ [CloseEnd a];
     log := log s |}.
Proof.
  destruct s as [a0 l p c n t lg]. cbn [closing listening pending].
  intros -> -> ->.
  unfold settle. cbn [closing close_all]. run_server.
  rewrite bool_decide_eq_true_2 by reflexivity. cbv beta iota.
  cbn [remove_one]. rewrite Nat.eqb_refl. reflexivity.
Qed.

(** The state in which the handler leaves a settled server when the setup
    of the new instance fails. *)
Lemma handler_failed_setup (type filename : string) (a n : nat)
    (t : list event) (lg : list log_entry) (e : Js.error) :
  reload_result = Returned tt ->
  setup_result n = Thrown e ->
  snd (handler type filename
         {| app := Some a; listening := Some a; pending := [];
            closing := []; next_app := n; trace := t; log := lg |}) =
  {| app := Some a;
     listening := if close_ends_first then None else Some a;
     pending := [];
     closing := if close_ends_first then [] else [a];
     next_app := S n;
     trace := t ++ Reload :: SetupBegin n :: CloseBegin a ::
                (if close_ends_first then [CloseEnd a] else [])
                ++ [DisposeBuildContext];
     log := lg ++ [LogDebug ("file " +:+ type +:+ ": " +:+ filename);
                   LogError e; LogDebug "server restarted"] |}.
Proof.
  intros Hr He. run_server. rewrite Hr. cbv beta iota. rewrite He.
  destruct close_ends_first; cbv beta iota.
  - rewrite bool_decide_eq_true_2 by reflexivity. cbv beta iota.
    cbn [Datatypes.app remove_one]. rewrite Nat.eqb_refl.
    by rewrite <- !app_assoc.
  - cbn [Datatypes.app]. by rewrite <- !app_assoc.
Qed.

(** X25: a server holds the port and nothing is under way; a server file
    changes, the reload succeeds and the setup of the new instance fails.
    The old instance was told to close under the same [Promise.all]:
    [this.app] remains that instance and no listen call is made.  When the
    close ended before the setup failed, the server no longer answers when
    the handler returns; when the setup failed first, the handler returns
    with the close still under way and the old instance still answering,
    and the server no longer answers once the close has ended.  The
    handler logs the error and disposes the build context. *)
Theorem failed_setup_leaves_server_down (type filename : string) (s : state)
    (a : nat) (e : Js.error) :
  reload_result = Returned tt ->
  app s = Some a ->
  listening s = Some a ->
  pending s = [] ->
  closing s = [] ->
  setup_result (next_app s) = Thrown e ->
  let s' := snd (handler type filename s) in
  app s' = Some a /\ pending s' = [] /\
  closing s' = (if close_ends_first then [] else [a]) /\
  reachable s' = negb close_ends_first /\
  reachable (settle port s') = false /\
  trace s' = trace s ++ Reload :: SetupBegin (next_app s) :: CloseBegin a ::
               (if close_ends_first then [CloseEnd a] else [])
               ++ [DisposeBuildContext] /\
  In (LogError e) (log s').
Proof.
  intros Hr Ha Hl Hp Hc He. cbv zeta. destruct s as [a0 l p c n t lg].
  cbn [app listening pending closing next_app trace] in *. subst a0 l p c.
  rewrite (handler_failed_setup type filename a n t lg e Hr He).
  cbn [app pending closing trace log]. unfold reachable at 1.
  cbn [listening].
  split; [reflexivity|]. split; [reflexivity|]. split; [reflexivity|].
  split; [by destruct close_ends_first|]. split.
  - destruct close_ends_first.
    + by rewrite settle_nothing.
    + by rewrite (settle_close _ a).
  - split; [reflexivity|]. apply in_or_app. right. cbn. tauto.
Qed.

(** X26: [start()] returns normally exactly when the setup succeeds and
    the port is free, and then the new instance is [this.app] and holds
    the port: unlike [restart()], [start()] waits for the listen call. *)
Theorem start_returns_iff_listening (s : state) :
  (fst (start s) = Returned tt <->
   setup_result (next_app s) = Returned tt /\ listening s = None) /\
  (fst (start s) = Returned tt ->
   app (snd (start s)) = Some (next_app s) /\
   listening (snd (start s)) = Some (next_app s) /\
   ~ In (next_app s) (pending (snd (start s)))).
Proof.
  destruct s as [a l p c n t lg]. run_server.
  destruct (setup_result n) as [[]|e]; cbv beta iota.
  - destruct l as [b|]; cbv beta iota.
    + split; [split; [discriminate|intros [_ [=]]]|discriminate].
    + split; [by split|]. intros _. repeat split.
      intros H. apply list_elem_of_In, list_elem_of_filter in H as [H _].
      by apply H.
  - split; [split; [discriminate|intros [[=] _]]|discriminate].
Qed.

(** One listen call under way, no close, and a free port: the call ends
    well. *)
Lemma settle_one (s : state) (n : nat) :
  listening s = None ->
  pending s = [n] ->
  closing s = [] ->
  settle port s =
  {| app := app s; listening := Some n; pending := []; closing := [];
     next_app := next_app s; trace := trace s ++ [ListenEnd n port];
     log := log s |}.
Proof.
  destruct s as [a l p c m t lg]. cbn [listening pending closing].
  intros -> -> ->.
  unfold settle. cbn [closing close_all pending settle_all]. run_server.
  by rewrite filter_cons_False by (intros H; by apply H).
Qed.

(** The state in which the handler leaves the server after a restart that
    went well. *)
Lemma handler_restarted (type filename : string) (s : state) (a : nat) :
  reload_result = Returned tt ->
  setup_result (next_app s) = Returned tt ->
  app s = Some a ->
  listening s = Some a ->
  closing s = [] ->
  let s' := snd (handler type filename s) in
  app s' = Some (next_app s) /\ listening s' = None /\
  pending s' = pending s ++ [next_app s] /\ closing s' = [].
Proof.
  intros Hr Hs Ha Hl Hc. cbv zeta. destruct s as [a0 l p c n t lg].
  cbn [app listening next_app pending closing] in Hs, Ha, Hl, Hc.
  subst a0 l c.
  run_server. rewrite Hr. cbv beta iota. rewrite Hs.
  destruct close_ends_first; cbv beta iota;
    rewrite bool_decide_eq_true_2 by reflexivity; cbv beta iota;
    cbn [Datatypes.app remove_one]; rewrite Nat.eqb_refl;
    repeat split.
Qed.

(** X27: a server holds the port and nothing is under way; a server file
    changes, the reload and the setup succeed, and no other run of the
    handler starts before the event loop has ended the listen call that
    [restart()] left under way.  Then the server does not answer when the
    handler returns, and once the listen call has ended the new instance
    holds the port that the old one held, and no listen call is left. *)
Theorem restarted_server_listens_in_the_end (type filename : string)
    (s : state) (a : nat) :
  reload_result = Returned tt ->
  setup_result (next_app s) = Returned tt ->
  app s = Some a ->
  listening s = Some a ->
  pending s = [] ->
  closing s = [] ->
  let s' := settle port (snd (handler type filename s)) in
  reachable (snd (handler type filename s)) = false /\
  app s' = Some (next_app s) /\ listening s' = Some (next_app s) /\
  pending s' = [] /\
  last (trace s') = Some (ListenEnd (next_app s) port).
Proof.
  intros Hr Hs Ha Hl Hp Hc. cbv zeta.
  destruct (handler_restarted type filename s a Hr Hs Ha Hl Hc)
    as (Happ & Hlis & Hpen & Hclo).
  rewrite Hp in Hpen. cbn [Datatypes.app] in Hpen.
  rewrite (settle_one _ _ Hlis Hpen Hclo).
  cbn [app listening pending trace].
  unfold reachable. rewrite Hlis.
  repeat split; [exact Happ|apply last_snoc].
Qed.

End Server.

Lemma failed_reload_skips_restart_witness :
  trace (snd (serverFileChange 3000 Samples.setup_ok
                (Thrown (Js.Error "Cannot find module")) true
                "changed" "server.js" Samples.first_started))
  = trace Samples.first_started ++ [Reload; DisposeBuildContext].
Proof.
  destruct (failed_reload_skips_restart 3000 Samples.setup_ok
              (Thrown (Js.Error "Cannot find module")) true
              "changed" "server.js" Samples.first_started
              (Js.Error "Cannot find module") eq_refl)
    as (_ & _ & _ & _ & H & _).
  exact H.
Defined.

Lemma failed_setup_leaves_server_down_witness :
  let s' := snd (serverFileChange 3000
                   (fun n => if Nat.eqb n 0 then Returned tt
                             else Thrown (Js.Error "plugin failed"))
                   (Returned tt) false
                   "changed" "server.js" Samples.first_started) in
  reachable s' = true /\ reachable (settle 3000 s') = false.
Proof.
  cbv zeta.
  destruct (failed_setup_leaves_server_down 3000
              (fun n => if Nat.eqb n 0 then Returned tt
                        else Thrown (Js.Error "plugin failed"))
              (Returned tt) false
              "changed" "server.js" Samples.first_started 0
              (Js.Error "plugin failed")
              eq_refl eq_refl eq_refl eq_refl eq_refl eq_refl)
    as (_ & _ & _ & H1 & H2 & _).
  split; [exact H1|exact H2].
Defined.

Lemma start_returns_iff_listening_witness :
  listening (snd (start 3000 Samples.setup_ok initial)) = Some 0.
Proof.
  destruct (start_returns_iff_listening 3000 Samples.setup_ok initial)
    as [_ H].
  destruct (H eq_refl) as (_ & Hl & _). exact Hl.
Defined.

Lemma restarted_server_listens_in_the_end_witness :
  listening
    (settle 3000
       (snd (serverFileChange 3000 Samples.setup_ok (Returned tt) true
               "changed" "server.js" Samples.first_started)))
  = Some 1.
Proof.
  destruct (restarted_server_listens_in_the_end 3000 Samples.setup_ok
              (Returned tt) true "changed" "server.js"
              Samples.first_started 0 eq_refl eq_refl eq_refl eq_refl
              eq_refl eq_refl)
    as (_ & _ & H & _).
  exact H.
Defined.

End DevServerMore.

(** ** The root route and the settings with a default *)

Module SetupFacts.
Import RootRoute PathShape.

(** X28: [setup()] never declares the root route twice, so the second
    declaration cannot fail as a duplicate; it declares none exactly when
    there is a content file and the content route is itself the root, that
    is when the base and the content path consist of slashes only. *)
Theorem root_route_is_declared_at_most_once (content : bool)
    (base contentPath : string) :
  length (declared content base contentPath) <= 1 /\
  (declared content base contentPath = [] <->
   content = true /\
   all_slashes base = true /\ all_slashes contentPath = true).
Proof.
  unfold declared.
  destruct (String.eqb_spec (Path.joinURLPathSegments base contentPath) "/")
    as [Heq|Hne]; destruct content; cbn; (split; [lia|]).
  - split; [|reflexivity]. intros _. split; [reflexivity|].
    by apply PathMore.join_root_iff.
  - split; [discriminate|]. intros [[=] _].
  - split; [discriminate|]. intros [_ H]. destruct Hne.
    by apply PathMore.join_root_iff.
  - split; [discriminate|]. intros [[=] _].
Qed.

(** X29: the timing plugin is always given two truthy options: a setting
    of [false] (or any other falsy value) for [timeAllRoutes] or
    [groupStatusCodes] is replaced by [true], so neither can be switched
    off by configuration. *)
Theorem timing_options_cannot_be_switched_off (get : string -> Js.value) :
  Js.truthy (Defaults.timeAllRoutes get) = true /\
  Js.truthy (Defaults.groupStatusCodes get) = true /\
  (Js.truthy (get "metrics.timing.timeAllRoutes") = true \/
   Defaults.timeAllRoutes get = Js.VBool true) /\
  (Js.truthy (get "metrics.timing.groupStatusCodes") = true \/
   Defaults.groupStatusCodes get = Js.VBool true).
Proof.
  unfold Defaults.timeAllRoutes, Defaults.groupStatusCodes, Defaults.or_else.
  destruct (Js.truthy (get "metrics.timing.timeAllRoutes")) eqn:H1;
    destruct (Js.truthy (get "metrics.timing.groupStatusCodes")) eqn:H2;
    rewrite ?H1, ?H2; cbn; tauto.
Qed.

End SetupFacts.
